(** * strongsup/decoder.py: the Decoder of the semantic parser

    A shallow embedding of [src/strongsup/decoder.py] and the properties of
    it that the specification states.

    Conventions of the embedding.
    - A Python exception is a value of [exn]; a call that may raise returns
      a [result]. Methods that mutate the decoder or call the trainable
      models run in the monad [M]: they take the mutable part of the world
      ([DecoderState]) and return it together with the result, so that the
      mutations made before a [raise] stay visible, as they do in Python.
    - The collaborators that live outside the file (parse cases, values,
      GloVe vectors, [check_denotation], [ValueFunctionExample], the
      factories called by [__init__]) are the fields of the classes
      [Externals], [Collaborators] and [Factories].
    - Floats that are only stored and compared (case weights, one-hot
      entries) are binary64 floats ([PrimFloat.float]). Floats that numpy
      computes with ([np.exp], subtraction, sum, division in [get_probs])
      are taken as real numbers: rounding and overflow are outside the
      model, division by zero is not (see [np_true_divide]). *)

From Stdlib Require Import Reals Lra PrimFloat ZArith DecimalString.
From stdpp Require Import gmap strings list.

Open Scope string_scope.
Open Scope list_scope.

(** A decimal float literal stands for the nearest binary64 value, as it
    does in Python. *)
#[local] Set Warnings "-inexact-float".

(** ** Exceptions and results *)

Inductive exn : Type :=
| AssertionError
| UnboundLocalError (var : string)
| ValueError (msg : string)
| KeyError (key : string)
| IndexError
| TypeError
| AttributeError.

Inductive result (A : Type) : Type :=
| Return (a : A)
| Raise (e : exn).
Arguments Return {A} a.
Arguments Raise {A} e.

Definition result_bind {A B : Type} (r : result A) (k : A -> result B) : result B :=
  match r with
  | Return a => k a
  | Raise e => Raise e
  end.

(** [[f(x) for x in l]] where [f] may raise: the first exception ends the
    loop. *)
Fixpoint result_map {A B : Type} (f : A -> result B) (l : list A) : result (list B) :=
  match l with
  | [] => Return []
  | x :: l' =>
      result_bind (f x) (fun y =>
      result_bind (result_map f l') (fun ys => Return (y :: ys)))
  end.

(** Python's [enumerate]. *)
Fixpoint enumerate_from {A : Type} (i : nat) (l : list A) : list (nat * A) :=
  match l with
  | [] => []
  | x :: l' => (i, x) :: enumerate_from (S i) l'
  end.

Definition enumerate {A : Type} (l : list A) : list (nat * A) := enumerate_from 0 l.

(** [gtd.utils.flatten]: a list of lists into one list. *)
Definition flatten {A : Type} (lol : list (list A)) : list A := concat lol.

(** ** Data model *)

(** What the decoder is handed from the other modules of the package. *)
Class Externals : Type := {
  (** a [ParseCase] *)
  Case : Type;
  (** the gold answer of an example and the denotation of a finished path *)
  Answer : Type;
  Denotation : Type;
  (** [strongsup.value.check_denotation] *)
  check_denotation : Answer -> Denotation -> bool;
  (** a GloVe vector (100 floats) *)
  Embedding : Type;
  (** the row [np.full((1, 100), 0.)] pads an utterance with *)
  zero_embedding : Embedding;
}.

(** A predicate (a decision of a path): [predicate.name]. *)
Record Predicate : Type := { name : string }.

Record Utterance : Type := { _tokens : list string }.

(** An object of the initial world state of a context. *)
Record WorldObject : Type := { position : Z; shape : string }.

(** [context.utterances] and [context.world.initial_state.all_objects]. *)
Record ParseContext : Type := {
  utterances : list Utterance;
  all_objects : list WorldObject;
}.

Section DataModel.
Context `{Externals}.

(** A [ParsePath] is a sequence of cases: [len(path)] is [length (_cases path)]
    and iterating over a path yields its cases. *)
Record ParsePath : Type := {
  _cases : list Case;
  decisions : list Predicate;
  path_context : ParseContext;
  log_prob : R;
  score : R;
  finalized_denotation : Denotation;
  terminated : bool;
}.

(** A [Beam] wraps the list [_paths]; [len(beam)] and iteration go through
    it. *)
Record Beam : Type := { _paths : list ParsePath }.

Record Example : Type := {
  context : ParseContext;
  answer : Answer;
}.

(** Modelled from the spec: [Beam.get_terminated] is defined with the
    exploration policies, outside this file. The spec: a beam "exposes the
    subset of terminated (complete) paths". *)
Definition get_terminated (beam : Beam) : Beam :=
  {| _paths := List.filter terminated (_paths beam) |}.

End DataModel.

(** ** The predicate dictionary and one-hot encoding *)

(** [Decoder._build_predicate_dictionary]: a Python dict from names to
    indices, filled in the order of [enumerate(predicates)]. *)
Definition _build_predicate_dictionary (predicates : list Predicate) : gmap string nat :=
  fold_left
    (fun predicate_dict '(i, predicate) => <[name predicate := i]> predicate_dict)
    (enumerate predicates) ∅.

(** [one_hot_decision = np.zeros(shape=len(pred_dict));
     one_hot_decision[pred_dict[decision]] = 1]:
    the dict lookup raises KeyError on a missing key, the numpy store raises
    IndexError on an index that is not below the length. *)
Definition one_hot_decision (pred_dict : gmap string nat) (decision : string)
  : result (list float) :=
  match pred_dict !! decision with
  | None => Raise (KeyError decision)
  | Some j =>
      if decide (j < size pred_dict)
      then Return (<[j := 1%float]> (replicate (size pred_dict) 0%float))
      else Raise IndexError
  end.

(** [Decoder.decisions_to_one_hot]: row [i] of the result is the one-hot
    vector of [decisions[i]]. *)
Definition decisions_to_one_hot (pred_dict : gmap string nat) (decisions : list string)
  : result (list (list float)) :=
  result_map (one_hot_decision pred_dict) decisions.

(** ** Collaborating objects *)

(** The further types and factory functions of the package that the decoder
    uses without looking inside. *)
Class Collaborators `{Externals} : Type := {
  (** the inner [ParseModel] of a [TrainParseModel] *)
  ParseModel : Type;
  (** one attention vector, and one block of logits, per case *)
  Attention : Type;
  Subscores : Type;
  ValueFunction : Type;
  (** the keras model returned by [build_model] *)
  DecomposableModel : Type;
  TBLogger : Type;
  Domain : Type;
  (** [domain.path_checker] *)
  path_checker_of : Domain -> ParsePath -> bool;
  (** sections of the configuration *)
  ValueFunctionConfig : Type;
  CaseWeighterConfig : Type;
  ExplorationPolicyConfig : Type;
  (** a [ValueFunctionExample] and [ValueFunctionExample.examples_from_paths] *)
  ValueFunctionExample : Type;
  examples_from_paths : Beam -> Example -> list ValueFunctionExample;
}.

Section Objects.
Context `{Collaborators}.

(** The case weighter is called as [case_weighter(paths, example)] and
    returns one list of weights per path. *)
Definition CaseWeighter : Type := Beam -> Example -> list (list float).

(** [TrainParseModel]: the inner model and [score_breakdown(cases,
    ignore_previous_utterances, caching)]; its [train_step] is an effect,
    see [ModelUpdate]. *)
Record TrainParseModel : Type := {
  parse_model : ParseModel;
  parse_model_score_breakdown :
    list Case -> bool -> bool -> list Attention * list Subscores;
}.

(** [ExplorationPolicy.get_beams(examples, verbose)]. *)
Record ExplorationPolicy : Type := {
  get_beams : list Example -> bool -> list Beam;
}.

(** The [decoder] section of the configuration. *)
Record Config : Type := {
  value_function : ValueFunctionConfig;
  case_weighter : CaseWeighterConfig;
  inputs_caching : bool;
  normalization : string;
  test_exploration_policy : ExplorationPolicyConfig;
  train_exploration_policy : ExplorationPolicyConfig;
}.

(** The attributes of a [Decoder] that are set once, by [__init__]. *)
Record Decoder : Type := {
  _glove_embeddings : gmap string Embedding;
  _parse_model : option TrainParseModel;
  _value_function : option ValueFunction;
  _case_weighter : option CaseWeighter;
  _config : Config;
  _caching : bool;
  _domain : Domain;
  _path_checker : ParsePath -> bool;
  _utter_len : Z;
  _max_stack_size : Z;
  _tb_logger : TBLogger;
  _class_weight : gmap Z float;
  _predicate_embedder_type : string;
  _normalization : string;
  _predicate2index : gmap string nat;
  _decomposable : DecomposableModel;
  _test_exploration_policy : ExplorationPolicy;
  _train_exploration_policy : ExplorationPolicy;
}.

(** A call that changes the parameters of a trainable model:
    [self._value_function.train_step(vf_examples)] and
    [self._parse_model.train_step(cases, weights, caching=...)]. *)
Inductive ModelUpdate : Type :=
| ValueFunctionTrainStep (vf_examples : list ValueFunctionExample)
| ParseModelTrainStep (cases : list Case) (weights : list float) (caching : bool).

(** The attributes of a [Decoder] that its methods assign to, and the
    calls made to the trainable models so far (oldest first). *)
Record DecoderState : Type := {
  _train_step_count : Z;
  correct_predictions : Z;
  all_predictions : Z;
  _decomposable_data : option (list (string * string * Z));
  model_updates : list ModelUpdate;
}.

(** The state [__init__] leaves. *)
Definition initial_state : DecoderState :=
  {| _train_step_count := 0;
     correct_predictions := 0;
     all_predictions := 0;
     _decomposable_data := None;
     model_updates := [] |}.

End Objects.

(** [NormalizationOptions]. *)
Module NormalizationOptions.
Definition LOCAL : string := "local".
Definition GLOBAL : string := "global".
End NormalizationOptions.

(** ** Probabilities of a beam *)

(** A value of a float array computed by numpy, in the model: a real
    number, an infinity, or nan. *)
Inductive npfloat : Type :=
| Finite (r : R)
| Inf (negative : bool)
| NaN.

(** numpy's [x / y] on floats: division by zero does not raise, it gives
    nan for 0/0 and a signed infinity otherwise. *)
Definition np_true_divide (x y : R) : npfloat :=
  if Req_dec_T y 0 then
    if Req_dec_T x 0 then NaN
    else if Rlt_dec 0 x then Inf false else Inf true
  else Finite (x / y).

(** [np.min]: raises ValueError on an empty array. *)
Definition np_min (stuff : list R) : result R :=
  match stuff with
  | [] => Raise (ValueError "zero-size array to reduction operation minimum which has no identity")
  | x :: rest => Return (fold_left Rmin rest x)
  end.

Definition np_sum (stuff : list R) : R := fold_left Rplus stuff 0%R.

Section Probabilities.
Context `{Collaborators}.

(** [Decoder.get_probs]. *)
Definition get_probs (self : Decoder) (beam : Beam) : result (list npfloat) :=
  if decide (length (_paths beam) = 0) then Return []
  else if decide (_normalization self = NormalizationOptions.LOCAL) then
    Return (map (fun path => Finite (exp (log_prob path))) (_paths beam))
  else
    let stuff := map score (_paths beam) in
    result_bind (np_min stuff) (fun m =>
    let stuff := map (fun x => (x - m)%R) stuff in
    Return (map (fun x => np_true_divide x (np_sum stuff)) stuff)).

(** ** Prediction *)

(** [Decoder.exploration_policy]. *)
Definition exploration_policy (self : Decoder) (train : bool) : ExplorationPolicy :=
  if train then _train_exploration_policy self else _test_exploration_policy self.

(** [Decoder.predictions]. *)
Definition predictions (self : Decoder) (examples : list Example) (train : bool)
    (verbose : bool) : list Beam :=
  let exploration_policy := exploration_policy self train in
  let beams := get_beams exploration_policy examples verbose in
  map get_terminated beams.

End Probabilities.

(** ** Score breakdown *)

(** [l[i]] on a Python list. Indices here are never negative. *)
Definition list_get {A : Type} (l : list A) (i : nat) : result A :=
  match l !! i with
  | Some x => Return x
  | None => Raise IndexError
  end.

(** [l[i:j]] for [0 <= i]: the elements at positions [i], ..., [j - 1] that
    exist. *)
Definition slice {A : Type} (l : list A) (i j : nat) : list A :=
  take (j - i) (drop i l).

(** A [for] loop whose body may raise; [acc] holds the variables the body
    assigns to. *)
Fixpoint result_for {A L : Type} (l : list A) (body : A -> L -> result L) (acc : L)
  : result L :=
  match l with
  | [] => Return acc
  | x :: l' => result_bind (body x acc) (result_for l' body)
  end.

Section ScoreBreakdown.
Context `{Collaborators}.

(** The first loop of [score_breakdown]: all cases of all paths in order,
    and the number of cases seen after each path. *)
Definition flatten_paths (paths : list ParsePath) : list nat * list Case :=
  fold_left
    (fun '(cumul, cases) path =>
       let cases := fold_left (fun cases case => cases ++ [case]) (_cases path) cases in
       (cumul ++ [length cases], cases))
    paths ([0], []).

(** [Decoder.score_breakdown]. *)
Definition score_breakdown (self : Decoder) (paths : list ParsePath)
  : result (list (list Attention) * list (list Subscores)) :=
  if decide (length paths = 0) then Return ([], [])
  else
    let '(cumul, cases) := flatten_paths paths in
    match _parse_model self with
    | None => Raise AttributeError
    | Some parse_model =>
        let '(attentions, subscores) :=
          parse_model_score_breakdown parse_model cases false false in
        result_for (seq 0 (length paths))
          (fun i '(grouped_attentions, grouped_subscores) =>
             result_bind (list_get cumul i) (fun lo =>
             result_bind (list_get cumul (i + 1)) (fun hi =>
             Return (grouped_attentions ++ [slice attentions lo hi],
                     grouped_subscores ++ [slice subscores lo hi]))))
          ([], [])
    end.

End ScoreBreakdown.

(** ** Training *)

Section Monad.
Context `{Collaborators}.

(** A method that reads and writes the decoder's mutable attributes, calls
    the trainable models, and may raise. *)
Definition M (A : Type) : Type := DecoderState -> result A * DecoderState.

Definition ret {A : Type} (a : A) : M A := fun st => (Return a, st).

Definition raise {A : Type} (e : exn) : M A := fun st => (Raise e, st).

Definition bind {A B : Type} (m : M A) (k : A -> M B) : M B :=
  fun st =>
    match m st with
    | (Return a, st') => k a st'
    | (Raise e, st') => (Raise e, st')
    end.

Definition lift {A : Type} (r : result A) : M A := fun st => (r, st).

Definition gets {A : Type} (f : DecoderState -> A) : M A := fun st => (Return (f st), st).

Definition modify (f : DecoderState -> DecoderState) : M unit := fun st => (Return tt, f st).

(** A [for] loop in [M]: the first exception ends it, with the state as it
    is then. *)
Fixpoint for_loop {A L : Type} (l : list A) (body : A -> L -> M L) (locals : L) : M L :=
  match l with
  | [] => ret locals
  | x :: l' => bind (body x locals) (for_loop l' body)
  end.

End Monad.

Notation "'do' x <- m ; k" := (bind m (fun x => k))
  (at level 10, x name, m at level 100, k at level 200).
Notation "'do' ' p <- m ; k" := (bind m (fun x => match x with p => k end))
  (at level 10, p pattern, m at level 100, k at level 200).
Notation "'run' m ; k" := (bind m (fun _ => k))
  (at level 10, m at level 100, k at level 200).

(** The local variables of [train_decomposable_batches] that live across
    the iterations of its loop. [indexes] and [y_hat_new] are written and
    never read, and are left out. *)
Module Locals.
Section Locals.
Context `{Externals}.

Record t : Type := {
  (** [beam_batch[0]]; nothing is appended to [beam_batch[1]] *)
  beam_batch : list (list Embedding);
  y_hat_batch : list (Z * Z);
  decisions : list string;
  utterances : list string;
  world_states : list string;
  (** [None] while the name [beam_batch_correct] is not bound; once bound,
      the list [beam_batch_correct[0]] ([beam_batch_correct[1]] stays
      empty) *)
  beam_batch_correct : option (list (list Embedding));
}.

Definition initial : t :=
  {| beam_batch := []; y_hat_batch := []; decisions := []; utterances := [];
     world_states := []; beam_batch_correct := None |}.

End Locals.
End Locals.

(** [str(n)] for an integer. *)
Definition str (n : Z) : string := NilZero.string_of_int (Z.to_int n).

Section Training.
Context `{Collaborators}.

Definition set_train_step_count (n : Z) (st : DecoderState) : DecoderState :=
  {| _train_step_count := n;
     correct_predictions := correct_predictions st;
     all_predictions := all_predictions st;
     _decomposable_data := _decomposable_data st;
     model_updates := model_updates st |}.

(** [self.correct_predictions += check_denote; self.all_predictions += 1] *)
Definition count_prediction (check_denote : bool) (st : DecoderState) : DecoderState :=
  {| _train_step_count := _train_step_count st;
     correct_predictions := correct_predictions st + (if check_denote then 1 else 0);
     all_predictions := all_predictions st + 1;
     _decomposable_data := _decomposable_data st;
     model_updates := model_updates st |}.

Definition set_decomposable_data (data : option (list (string * string * Z)))
    (st : DecoderState) : DecoderState :=
  {| _train_step_count := _train_step_count st;
     correct_predictions := correct_predictions st;
     all_predictions := all_predictions st;
     _decomposable_data := data;
     model_updates := model_updates st |}.

(** A call to [train_step] of one of the trainable models. *)
Definition update_model (call : ModelUpdate) (st : DecoderState) : DecoderState :=
  {| _train_step_count := _train_step_count st;
     correct_predictions := correct_predictions st;
     all_predictions := all_predictions st;
     _decomposable_data := _decomposable_data st;
     model_updates := model_updates st ++ [call] |}.

(** [self._glove_embeddings[token]] *)
Definition glove_embedding (self : Decoder) (token : string) : result Embedding :=
  match _glove_embeddings self !! token with
  | Some e => Return e
  | None => Raise (KeyError token)
  end.

(** The embeddings of the tokens of the utterances, and the tokens joined
    for printing. *)
Definition embed_utterances (self : Decoder) (utterances : list Utterance)
  : result (list Embedding * string) :=
  result_for utterances
    (fun utter acc =>
       result_for (_tokens utter)
         (fun token '(utter_embds, sentence_for_print) =>
            result_bind (glove_embedding self token) (fun e =>
            Return (utter_embds ++ [e], sentence_for_print +:+ token +:+ " ")))
         acc)
    ([], "").

(** [np.concatenate((np.array(utter_embds),
                     np.full((self._utter_len - len(utter_embds), 100), 0.)))]:
    [np.full] refuses a negative number of rows, and [np.concatenate]
    refuses to join the one-dimensional empty array [np.array([])] with a
    two-dimensional one. *)
Definition pad_utterance (utter_len : Z) (utter_embds : list Embedding)
  : result (list Embedding) :=
  let missing := (utter_len - Z.of_nat (length utter_embds))%Z in
  if decide (missing < 0)%Z then
    Raise (ValueError "negative dimensions are not allowed")
  else if decide (length utter_embds = 0) then
    Raise (ValueError "all the input arrays must have same number of dimensions")
  else Return (utter_embds ++ replicate (Z.to_nat missing) zero_embedding).

(** The body of [for idx, path in enumerate(beam._paths)]. *)
Definition path_body (example : Example) (utter_embds : list Embedding)
    (sentence_for_print world_state : string)
    (idx_path : nat * ParsePath) (locals : Locals.t) : M Locals.t :=
  let '(idx, path) := idx_path in
  let check_denote := check_denotation (answer example) (finalized_denotation path) in
  let y_hat := if check_denote then (0, 1)%Z else (1, 0)%Z in
  run modify (count_prediction check_denote);
  let full_decision_for_print :=
    fold_left (fun s decision => s +:+ " " +:+ name decision) (decisions path) "" in
  ret {| Locals.beam_batch := Locals.beam_batch locals ++ [utter_embds];
         Locals.y_hat_batch := Locals.y_hat_batch locals ++ [y_hat];
         Locals.decisions := Locals.decisions locals ++ [full_decision_for_print];
         Locals.utterances := Locals.utterances locals ++ [sentence_for_print];
         Locals.world_states := Locals.world_states locals ++ [world_state];
         Locals.beam_batch_correct :=
           if check_denote
           then (fun correct => correct ++ [utter_embds]) <$> Locals.beam_batch_correct locals
           else Locals.beam_batch_correct locals |}.

(** The body of [for example, beam in zip(examples, beams)]. *)
Definition example_body (self : Decoder) (example_beam : Example * Beam)
    (locals : Locals.t) : M Locals.t :=
  let '(example, beam) := example_beam in
  match _paths beam with
  | [] => ret locals
  | first_path :: _ =>
      let locals :=
        {| Locals.beam_batch := Locals.beam_batch locals;
           Locals.y_hat_batch := Locals.y_hat_batch locals;
           Locals.decisions := Locals.decisions locals;
           Locals.utterances := Locals.utterances locals;
           Locals.world_states := Locals.world_states locals;
           Locals.beam_batch_correct := Some [] |} in
      do '(utter_embds, sentence_for_print) <-
        lift (embed_utterances self (utterances (path_context first_path)));
      let world_state :=
        fold_left
          (fun s currObject => s +:+ " " +:+ str (position currObject) +:+ ":" +:+ shape currObject)
          (all_objects (context example)) "" in
      do utter_embds <- lift (pad_utterance (_utter_len self) utter_embds);
      for_loop (enumerate (_paths beam))
        (path_body example utter_embds sentence_for_print world_state) locals
  end.

(** [Decoder.train_decomposable_batches]. It returns [None] on the early
    [return], and the list [decomposable_data] of rows
    [[utter, dec, y[1]]] otherwise. *)
Definition train_decomposable_batches (self : Decoder) (beams : list Beam)
    (examples : list Example) : M (option (list (string * string * Z))) :=
  run modify (fun st => set_train_step_count (_train_step_count st + 1) st);
  do count <- gets _train_step_count;
  if decide (count < 0)%Z then ret None
  else
    do locals <- for_loop (zip examples beams) (example_body self) Locals.initial;
    match Locals.beam_batch_correct locals with
    | None => raise (UnboundLocalError "beam_batch_correct")
    | Some _ =>
        ret (Some (zip (zip (Locals.utterances locals) (Locals.decisions locals))
                       (snd <$> Locals.y_hat_batch locals)))
    end.

(** [weight != 0] on floats. *)
Definition nonzero (weight : float) : bool := negb (PrimFloat.eqb weight 0%float).

(** The pruning loop of [train_step]:
    [for case, weight in zip(all_cases, all_case_weights): if weight != 0: ...]. *)
Definition prune (all_cases : list Case) (all_case_weights : list float)
  : list Case * list float :=
  fold_left
    (fun '(cases_to_reinforce, weights_to_reinforce) '(case, weight) =>
       if nonzero weight
       then (cases_to_reinforce ++ [case], weights_to_reinforce ++ [weight])
       else (cases_to_reinforce, weights_to_reinforce))
    (zip all_cases all_case_weights) ([], []).

(** [sum(len(p) for p in paths)] *)
Definition total_cases (paths : Beam) : nat :=
  fold_left (fun n p => n + length (_cases p)) (_paths paths) 0.

(** The body of the first loop of [train_step]. Calling the attribute
    [_case_weighter] of a decoder built without a parse model ([None])
    raises TypeError. *)
Definition weigh_example (self : Decoder) (example_paths : Example * Beam)
    (acc : list Case * list float) : M (list Case * list float) :=
  let '(example, paths) := example_paths in
  let '(all_cases, all_case_weights) := acc in
  match _case_weighter self with
  | None => raise TypeError
  | Some case_weighter =>
      let case_weights := flatten (case_weighter paths example) in
      let cases := flatten (_cases <$> _paths paths) in
      if decide (length case_weights = total_cases paths)
      then ret (all_cases ++ cases, all_case_weights ++ case_weights)
      else raise AssertionError
  end.

(** [Decoder.train_step]. *)
Definition train_step (self : Decoder) (examples : list Example) : M unit :=
  let beams := predictions self examples true false in
  do data <- train_decomposable_batches self beams examples;
  run modify (set_decomposable_data data);
  do '(all_cases, all_case_weights) <-
    for_loop (zip examples beams) (weigh_example self) ([], []);
  let '(cases_to_reinforce, weights_to_reinforce) := prune all_cases all_case_weights in
  let vf_examples :=
    fold_left
      (fun vf_examples '(example, paths) => vf_examples ++ examples_from_paths paths example)
      (zip examples beams) [] in
  do _ <- match _value_function self with
          | None => raise AttributeError
          | Some _ => modify (update_model (ValueFunctionTrainStep vf_examples))
          end;
  match _parse_model self with
  | None => raise AttributeError
  | Some _ =>
      modify (update_model (ParseModelTrainStep cases_to_reinforce weights_to_reinforce false))
  end.

End Training.

(** ** Construction *)

(** The shape of a keras input: [None] is a dimension left open. *)
Definition Shape : Type := option Z * Z * Z.

(** [settings = {'lr': 0.01, 'dropout': 0.2, 'gru_encode': True}] *)
Record Settings : Type := { lr : float; dropout : float; gru_encode : bool }.

(** The functions of other modules that [__init__] calls to build the
    parts of a decoder. [get_exploration_policy] is also given the decoder
    under construction, which the policy keeps for its own use; in the
    model that use is inside [get_beams]. *)
Class Factories `{Collaborators} : Type := {
  get_value_function : ValueFunctionConfig -> ParseModel -> ValueFunction;
  get_case_weighter :
    CaseWeighterConfig -> ParseModel -> option ValueFunction -> CaseWeighter;
  build_model : Shape -> Shape -> Settings -> DecomposableModel;
  get_exploration_policy :
    ExplorationPolicyConfig -> string -> bool -> ExplorationPolicy;
}.

(** The calls [__init__] makes to those functions, in the order made. *)
Inductive FactoryCall : Type :=
| GetValueFunction
| GetCaseWeighter
| BuildModel
| GetExplorationPolicy (train : bool).

Section Construction.
Context `{Factories}.

(** [Decoder.__init__]: the decoder and the initial values of its mutable
    attributes, or the exception raised; and the factory calls made on the
    way. *)
Definition __init__ (parse_model_ : option TrainParseModel) (config : Config)
    (domain : Domain) (glove_embeddings : gmap string Embedding)
    (predicates : list Predicate) (utter_len max_stack_size : Z)
    (tb_logger : TBLogger) (predicate_embedder_type : string)
  : result (Decoder * DecoderState) * list FactoryCall :=
  let value_function_ :=
    (fun m => get_value_function (value_function config) (parse_model m)) <$> parse_model_ in
  let case_weighter_ :=
    (fun m => get_case_weighter (case_weighter config) (parse_model m) value_function_)
      <$> parse_model_ in
  let calls :=
    match parse_model_ with
    | Some _ => [GetValueFunction; GetCaseWeighter]
    | None => []
    end in
  if decide (normalization config = NormalizationOptions.GLOBAL) then
    (Raise (ValueError "Global normalization is no longer supported."), calls)
  else
    let predicate2index := _build_predicate_dictionary predicates in
    let shape_utt : Shape := (None, 100, 2)%Z in
    let shape_path : Shape :=
      if decide (predicate_embedder_type = "one_hot")
      then (None, Z.of_nat (size predicate2index), 2)%Z
      else (Some max_stack_size, 96, 2)%Z in
    let settings := {| lr := 0.01; dropout := 0.2; gru_encode := true |} in
    let decomposable := build_model shape_utt shape_path settings in
    let test_policy :=
      get_exploration_policy (test_exploration_policy config) (normalization config) false in
    let train_policy :=
      get_exploration_policy (train_exploration_policy config) (normalization config) true in
    (Return
       ({| _glove_embeddings := glove_embeddings;
           _parse_model := parse_model_;
           _value_function := value_function_;
           _case_weighter := case_weighter_;
           _config := config;
           _caching := inputs_caching config;
           _domain := domain;
           _path_checker := path_checker_of domain;
           _utter_len := utter_len;
           _max_stack_size := max_stack_size;
           _tb_logger := tb_logger;
           _class_weight := {[ 0%Z := 1%float; 1%Z := 5%float ]};
           _predicate_embedder_type := predicate_embedder_type;
           _normalization := normalization config;
           _predicate2index := predicate2index;
           _decomposable := decomposable;
           _test_exploration_policy := test_policy;
           _train_exploration_policy := train_policy |},
        initial_state),
     calls ++ [BuildModel; GetExplorationPolicy false; GetExplorationPolicy true]).

End Construction.

(** * The decision embedder and the training of the decomposable model *)

(** ** Strings *)

(** The characters [str.split()] splits at: [string.whitespace]. *)
Definition is_whitespace (c : Ascii.ascii) : bool :=
  let n := Ascii.nat_of_ascii c in
  Nat.eqb n 32 || (Nat.leb 9 n && Nat.leb n 13).

(** [s.split()], with [word] the characters read since the last
    whitespace. *)
Fixpoint split_from (word : string) (s : string) : list string :=
  match s with
  | EmptyString => if decide (word = "") then [] else [word]
  | String c s' =>
      if is_whitespace c then
        if decide (word = "") then split_from "" s' else word :: split_from "" s'
      else split_from (word +:+ String c "") s'
  end.

Definition split (s : string) : list string := split_from "" s.

(** ** What runs the networks *)

(** The TensorFlow session and the keras model, as far as the decoder
    sees them. *)
Class Runtime `{Collaborators} : Type := {
  (** what [tf.get_default_session()] returns when a session is registered *)
  Session : Type;
  (** [sess.run(fetch, feed_dict=feed)['stack_embedder']] for the feed made
      from [path_cases]: rows of 96 floats *)
  run_stack_embedder : Session -> TrainParseModel -> option (list Case) -> list (list float);
  (** [self._decomposable.train_on_batch(beam_batch, y_hat_batch,
      class_weight=...)]: the loss and the accuracy *)
  train_on_batch :
    DecomposableModel -> list (list Embedding) * list (list (list float)) ->
    list (Z * Z) -> gmap Z float -> float * float;
  (** [int(s)] on a field of the CSV file; [None] when it raises
      ValueError *)
  int : string -> option Z;
  (** [random.sample(population, k)] for [k] not above the size of the
      population, at the [i]-th call *)
  random_sample : nat -> list nat -> nat -> list nat;
}.

Section Calls.
Context `{Externals}.

(** A call to the keras model or to the logger. *)
Inductive DecomposableCall : Type :=
| TrainOnBatch (beam_batch : list (list Embedding) * list (list (list float)))
    (y_hat_batch : list (Z * Z)) (class_weight : gmap Z float)
| Log (name : string) (value : float) (step : nat).

End Calls.

Section Embedder.
Context `{Runtime}.

(** [Decoder.decisions_embedder]; [sess] is what
    [tf.get_default_session()] returns. *)
Definition decisions_embedder (self : Decoder) (sess : option Session)
    (decisions : list string) (path_cases : option (list Case))
  : result (list (list float)) :=
  result_bind
    (if decide (_predicate_embedder_type self = "stack_embedder") then
       match _parse_model self with
       | None => Raise AttributeError
       | Some parse_model =>
           match sess with
           | None => Raise (ValueError "No default TensorFlow Session registered.")
           | Some sess => Return (run_stack_embedder sess parse_model path_cases, 96)
           end
       end
     else
       result_bind (decisions_to_one_hot (_predicate2index self) decisions)
         (fun rows => Return (rows, size (_predicate2index self))))
    (fun '(decisions_embedder, dim) =>
       let missing := (_max_stack_size self - Z.of_nat (length decisions_embedder))%Z in
       if decide (missing < 0)%Z then
         Raise (ValueError "negative dimensions are not allowed")
       else
         Return (decisions_embedder
                   ++ replicate (Z.to_nat missing) (replicate dim 0%float))).

(** [y_hat_vec = [0, 0]; y_hat_vec[y_hat] = 1]: a list of two elements has
    the indices -2, -1, 0 and 1. *)
Definition y_hat_vector (y_hat : Z) : result (Z * Z) :=
  if decide (y_hat = 0 \/ y_hat = -2)%Z then Return (1, 0)%Z
  else if decide (y_hat = 1 \/ y_hat = -1)%Z then Return (0, 1)%Z
  else Raise IndexError.

(** The body of the loop of [train_decomposable_on_example]. *)
Definition example_row (self : Decoder) (sess : option Session)
    (row : string * string * Z)
    (acc : list (list Embedding) * list (list (list float)) * list (Z * Z))
  : result (list (list Embedding) * list (list (list float)) * list (Z * Z)) :=
  let '(decision, utter, y_hat) := row in
  let '(beam_batch_0, beam_batch_1, y_hat_batch) := acc in
  let decision_tokens := split decision in
  result_bind
    (result_for (split utter)
       (fun token utter_embds =>
          result_bind (glove_embedding self token) (fun e => Return (utter_embds ++ [e])))
       [])
    (fun utter_embds =>
  result_bind (pad_utterance (_utter_len self) utter_embds) (fun utter_embds =>
  result_bind (y_hat_vector y_hat) (fun y_hat_vec =>
  result_bind (decisions_embedder self sess decision_tokens None) (fun decisions_embedder =>
  Return (beam_batch_0 ++ [utter_embds],
          beam_batch_1 ++ [decisions_embedder],
          y_hat_batch ++ [y_hat_vec]))))).

(** [Decoder.train_decomposable_on_example]: the result, and the calls
    made to the keras model and to the logger. The method reads the step
    counter of the decoder and assigns to none of its attributes. *)
Definition train_decomposable_on_example (self : Decoder) (sess : option Session)
    (st : DecoderState) (utters decisions : list string) (y_hats : list Z) (step : nat)
  : result unit * list DecomposableCall :=
  if decide (_train_step_count st < 0)%Z then (Return tt, [])
  else
    match result_for (zip (zip decisions utters) y_hats) (example_row self sess) ([], [], []) with
    | Raise e => (Raise e, [])
    | Return (beam_batch_0, beam_batch_1, y_hat_batch) =>
        let '(loss, accuracy) :=
          train_on_batch (_decomposable self) (beam_batch_0, beam_batch_1) y_hat_batch
            (_class_weight self) in
        (Return tt,
         [TrainOnBatch (beam_batch_0, beam_batch_1) y_hat_batch (_class_weight self);
          Log "decomposableLoss" loss step;
          Log "decomposableAccuracy" accuracy step])
    end.

(** The first loop of [train_decomposable_from_csv], over the rows the CSV
    reader yields: a row that does not have three fields cannot be
    unpacked, and the third field must be an integer. *)
Definition read_rows (rows : list (list string))
  : result (list string * list string * list Z) :=
  result_for rows
    (fun row '(utterances, decisions, y_hats) =>
       match row with
       | [utterance; decision; y_hat] =>
           match int y_hat with
           | Some n => Return (utterances ++ [utterance], decisions ++ [decision], y_hats ++ [n])
           | None => Raise (ValueError "invalid literal for int()")
           end
       | _ => Raise (ValueError "wrong number of values to unpack")
       end)
    ([], [], []).

(** [random.sample(xrange(1, file_len), batch_size)] at the [i]-th call:
    ValueError when the sample is larger than the population. *)
Definition sample_indices (i : nat) (file_len batch_size : nat) : result (list nat) :=
  let population := seq 1 (file_len - 1) in
  if decide (batch_size <= length population)
  then Return (random_sample i population batch_size)
  else Raise (ValueError "sample larger than population").

(** The rows of the batch at the sampled indices. *)
Definition pick_rows (utterances decisions : list string) (y_hats : list Z)
    (batch_indices : list nat) : result (list string * list string * list Z) :=
  result_for batch_indices
    (fun j '(curr_utterances, curr_decisions, curr_y_hats) =>
       result_bind (list_get utterances j) (fun utterance =>
       result_bind (list_get decisions j) (fun decision =>
       result_bind (list_get y_hats j) (fun y_hat =>
       Return (curr_utterances ++ [utterance], curr_decisions ++ [decision],
               curr_y_hats ++ [y_hat])))))
    ([], [], []).

#[local] Set Warnings "-abstract-large-number".

(** The loop [for i in xrange(10000)] of [train_decomposable_from_csv],
    from step [i] on, for [steps] more steps: the calls made, and the
    exception that ended it if one did. *)
Fixpoint csv_steps (self : Decoder) (sess : option Session) (st : DecoderState)
    (utterances decisions : list string) (y_hats : list Z) (i steps : nat)
  : result unit * list DecomposableCall :=
  match steps with
  | 0 => (Return tt, [])
  | S steps' =>
      match
        result_bind (sample_indices i (length decisions) 30)
          (pick_rows utterances decisions y_hats)
      with
      | Raise e => (Raise e, [])
      | Return (curr_utterances, curr_decisions, curr_y_hats) =>
          match
            train_decomposable_on_example self sess st curr_utterances curr_decisions
              curr_y_hats i
          with
          | (Raise e, calls) => (Raise e, calls)
          | (Return _, calls) =>
              let '(r, calls') :=
                csv_steps self sess st utterances decisions y_hats (S i) steps' in
              (r, calls ++ calls')
          end
      end
  end.

(** [Decoder.train_decomposable_from_csv], for a file that opens and in
    which the CSV reader finds [rows]: the result, the decoder's
    attributes after the call, and the calls made to the keras model and
    to the logger. *)
Definition train_decomposable_from_csv (self : Decoder) (sess : option Session)
    (rows : list (list string)) (st : DecoderState)
  : result unit * DecoderState * list DecomposableCall :=
  let st := set_train_step_count (_train_step_count st + 1) st in
  match read_rows rows with
  | Raise e => (Raise e, st, [])
  | Return (utterances, decisions, y_hats) =>
      let '(r, calls) := csv_steps self sess st utterances decisions y_hats 0 10000 in
      (r, st, calls)
  end.

End Embedder.

(** * Notions used in the statements *)

Section Notions.
Context `{Collaborators}.

(** ** Probabilities *)



(** The scores of a beam after the shift by their minimum. *)
Definition shifted_scores (beam : Beam) : list R :=
  match _paths beam with
  | [] => []
  | path :: paths =>
      let m := fold_left Rmin (map score paths) (score path) in
      map (fun x => (x - m)%R) (map score (path :: paths))
  end.

(** ** Score breakdown *)

(** The number of cases seen after each path, counted from [base]. *)
Fixpoint prefix_lengths (base : nat) (paths : list ParsePath) : list nat :=
  match paths with
  | [] => []
  | path :: paths' =>
      (base + length (_cases path)) :: prefix_lengths (base + length (_cases path)) paths'
  end.

(** [scores] cut into consecutive groups, one per path, as long as the
    path has cases. *)
Fixpoint split_by {A : Type} (scores : list A) (paths : list ParsePath) : list (list A) :=
  match paths with
  | [] => []
  | path :: paths' =>
      take (length (_cases path)) scores
        :: split_by (drop (length (_cases path)) scores) paths'
  end.

(** ** Training *)

(** The step counter of a decoder is never negative: it starts at 0 and
    [train_decomposable_batches] adds 1. *)
Definition counter_invariant (st : DecoderState) : Prop := (0 <= _train_step_count st)%Z.

(** The cases of a batch in the order [train_step] collects them, and the
    weights a case weighter gives them. *)
Definition batch_cases (batch : list (Example * Beam)) : list Case :=
  flatten ((fun '(example, paths) => flatten (_cases <$> _paths paths)) <$> batch).

Definition batch_weights (case_weighter : CaseWeighter) (batch : list (Example * Beam))
  : list float :=
  flatten ((fun '(example, paths) => flatten (case_weighter paths example)) <$> batch).

(** The condition of the [assert] of [train_step] for one example. *)
Definition weights_match (case_weighter : CaseWeighter) (example_paths : Example * Beam)
  : Prop :=
  length (flatten (case_weighter example_paths.2 example_paths.1))
  = total_cases example_paths.2.

#[global] Instance weights_match_dec (case_weighter : CaseWeighter)
    (example_paths : Example * Beam) : Decision (weights_match case_weighter example_paths).
Proof. unfold weights_match. apply _. Defined.

End Notions.

(** ** The predicate dictionary *)

(** The loop of [_build_predicate_dictionary], started at index [i] with
    the dictionary [d]. *)
Definition fill_dictionary (d : gmap string nat) (i : nat) (predicates : list Predicate)
  : gmap string nat :=
  fold_left
    (fun predicate_dict '(i, predicate) => <[name predicate := i]> predicate_dict)
    (enumerate_from i predicates) d.

(** The index, counted from [i], of the last occurrence of [nm]. *)
Fixpoint last_index_from (i : nat) (nm : string) (names : list string) : option nat :=
  match names with
  | [] => None
  | x :: rest =>
      match last_index_from (S i) nm rest with
      | Some j => Some j
      | None => if decide (x = nm) then Some i else None
      end
  end.

(** * Further notions used in the statements *)

Section MoreNotions.
Context `{Collaborators}.

(** The tokens of the utterances of the context of a path, in order. *)
Definition utterance_tokens (path : ParsePath) : list string :=
  concat (_tokens <$> utterances (path_context path)).

(** The strings [train_decomposable_batches] builds for a row: the tokens,
    each followed by a space, and the names of the decisions, each
    preceded by a space. *)
Definition sentence_for_print (tokens : list string) : string :=
  fold_left (fun s token => s +:+ token +:+ " ") tokens "".

Definition full_decision_for_print (names : list string) : string :=
  fold_left (fun s nm => s +:+ " " +:+ nm) names "".

(** Whether the denotation of a path is the answer of the example. *)
Definition is_correct (example : Example) (path : ParsePath) : bool :=
  check_denotation (answer example) (finalized_denotation path).

(** The rows that one example and its beam add to [decomposable_data]: one
    per path, with the utterance of the first path. *)
Definition rows_of (example_beam : Example * Beam) : list (string * string * Z) :=
  match _paths example_beam.2 with
  | [] => []
  | first_path :: _ =>
      (fun path =>
         (sentence_for_print (utterance_tokens first_path),
          full_decision_for_print (name <$> decisions path),
          if is_correct example_beam.1 path then 1%Z else 0%Z))
        <$> _paths example_beam.2
  end.

(** The number of paths of a batch, and of those with the right
    denotation. *)
Definition count_all (batch : list (Example * Beam)) : Z :=
  Z.of_nat (length (concat ((fun example_beam => _paths example_beam.2) <$> batch))).

Definition count_correct (batch : list (Example * Beam)) : Z :=
  Z.of_nat
    (length
       (concat
          ((fun example_beam =>
              List.filter (is_correct example_beam.1) (_paths example_beam.2))
             <$> batch))).

(** What the loop body needs of a beam with paths: every token of the
    utterance of the first path has an embedding, and there is at least
    one token and at most [utter_len] of them. *)
Definition embeddable (self : Decoder) (example_beam : Example * Beam) : Prop :=
  match _paths example_beam.2 with
  | [] => True
  | first_path :: _ =>
      Forall (fun token => is_Some (_glove_embeddings self !! token))
        (utterance_tokens first_path)
      /\ 0 < length (utterance_tokens first_path)
      /\ (Z.of_nat (length (utterance_tokens first_path)) <= _utter_len self)%Z
  end.

(** The state with the two prediction counters raised. *)
Definition add_predictions (correct all : Z) (st : DecoderState) : DecoderState :=
  {| _train_step_count := _train_step_count st;
     correct_predictions := correct_predictions st + correct;
     all_predictions := all_predictions st + all;
     _decomposable_data := _decomposable_data st;
     model_updates := model_updates st |}.

(** The rows held by the local variables, and that the three lists they
    are made of have the same length. *)
Definition rows_in (locals : Locals.t) : list (string * string * Z) :=
  zip (zip (Locals.utterances locals) (Locals.decisions locals))
      (snd <$> Locals.y_hat_batch locals).

Definition aligned (locals : Locals.t) : Prop :=
  length (Locals.utterances locals) = length (Locals.decisions locals)
  /\ length (Locals.decisions locals) = length (Locals.y_hat_batch locals).

End MoreNotions.

(** A token as [str.split()] yields them: not empty, and without
    whitespace. *)
Fixpoint no_whitespace (s : string) : bool :=
  match s with
  | EmptyString => true
  | String c s' => negb (is_whitespace c) && no_whitespace s'
  end.

Definition is_token (s : string) : Prop := s <> "" /\ no_whitespace s = true.

Section RuntimeNotions.
Context `{Runtime}.

(** A row of the CSV file that the first loop of
    [train_decomposable_from_csv] accepts: three fields, the third an
    integer. *)
Definition well_formed (row : list string) : Prop :=
  exists (utterance decision y_hat : string) (n : Z),
    row = [utterance; decision; y_hat] /\ int y_hat = Some n.

(** The three calls of one training step on a batch. *)
Definition step_calls (self : Decoder)
    (beam_batch : list (list Embedding) * list (list (list float)))
    (y_hat_batch : list (Z * Z)) (step : nat) : list DecomposableCall :=
  [TrainOnBatch beam_batch y_hat_batch (_class_weight self);
   Log "decomposableLoss"
     (train_on_batch (_decomposable self) beam_batch y_hat_batch (_class_weight self)).1
     step;
   Log "decomposableAccuracy"
     (train_on_batch (_decomposable self) beam_batch y_hat_batch (_class_weight self)).2
     step].

(** The body of the loop of [read_rows]. *)
Definition read_row (row : list string) (acc : list string * list string * list Z)
  : result (list string * list string * list Z) :=
  let '(utterances, decisions, y_hats) := acc in
  match row with
  | [utterance; decision; y_hat] =>
      match int y_hat with
      | Some n => Return (utterances ++ [utterance], decisions ++ [decision], y_hats ++ [n])
      | None => Raise (ValueError "invalid literal for int()")
      end
  | _ => Raise (ValueError "wrong number of values to unpack")
  end.

(** What [random.sample] promises for a sample that is not larger than the
    population: as many elements as asked for, all from the population. *)
Definition sampler_ok : Prop :=
  forall (i : nat) (population : list nat) (k : nat),
    k <= length population ->
    length (random_sample i population k) = k
    /\ Forall (fun j => j ∈ population) (random_sample i population k).

(** The fields of a row on which [train_decomposable_on_example] can train
    with the one-hot embedder: a label that is an index of [[0, 0]], an
    utterance of at least one and at most [utter_len] tokens that all have
    an embedding, and at most [max_stack_size] decisions that all have a
    one-hot vector. *)
Definition trainable_fields (self : Decoder) (fields : string * string * Z) : Prop :=
  let '(utterance, decision, n) := fields in
  (-2 <= n <= 1)%Z
  /\ Forall (fun token => is_Some (_glove_embeddings self !! token)) (split utterance)
  /\ 0 < length (split utterance)
  /\ (Z.of_nat (length (split utterance)) <= _utter_len self)%Z
  /\ Forall
       (fun d =>
          exists j : nat,
            _predicate2index self !! d = Some j /\ j < size (_predicate2index self))
       (split decision)
  /\ (Z.of_nat (length (split decision)) <= _max_stack_size self)%Z.

(** A row of the CSV file with the fields [fields], and one with trainable
    fields. *)
Definition row_fields (row : list string) (fields : string * string * Z) : Prop :=
  exists y_hat : string,
    row = [fields.1.1; fields.1.2; y_hat] /\ int y_hat = Some fields.2.

Definition trainable (self : Decoder) (row : list string) : Prop :=
  exists fields : string * string * Z,
    row_fields row fields /\ trainable_fields self fields.

End RuntimeNotions.

(** * A small instance

    A world in which cases, answers and denotations are numbers, used to
    run the decoder on concrete batches. *)

Module Toy.

#[export] Instance externals : Externals :=
  {| Case := nat;
     Answer := nat;
     Denotation := nat;
     check_denotation := Nat.eqb;
     Embedding := list float;
     zero_embedding := replicate 100 0%float |}.

(** The value function gets one example per path: the number of its cases
    and whether its denotation is the answer. *)
#[export] Instance collaborators : Collaborators :=
  {| ParseModel := unit;
     Attention := nat;
     Subscores := nat;
     ValueFunction := unit;
     DecomposableModel := unit;
     TBLogger := unit;
     Domain := unit;
     path_checker_of := fun _ _ => true;
     ValueFunctionConfig := unit;
     CaseWeighterConfig := unit;
     ExplorationPolicyConfig := unit;
     ValueFunctionExample := nat * bool;
     examples_from_paths := fun paths example =>
       (fun path =>
          (length (_cases path),
           check_denotation (answer example) (finalized_denotation path)))
         <$> _paths paths |}.

Definition walk : Predicate := {| name := "walk" |}.
Definition turn : Predicate := {| name := "turn" |}.
Definition stop : Predicate := {| name := "stop" |}.

(** "go left", in a world with one circle at position 1. *)
Definition go_left : ParseContext :=
  {| utterances := [ {| _tokens := ["go"; "left"] |} ];
     all_objects := [ {| position := 1; shape := "circle" |} ] |}.

Definition glove : gmap string (list float) :=
  {[ "go" := replicate 100 1%float; "left" := replicate 100 2%float ]}.

(** Three finished paths, of 3, 0 and 2 cases, and one that is not
    finished. *)
Definition path_a : ParsePath :=
  {| _cases := [1; 2; 3]; decisions := [walk; turn; stop]; path_context := go_left;
     log_prob := 0; score := 2; finalized_denotation := 7; terminated := true |}.

Definition path_b : ParsePath :=
  {| _cases := []; decisions := []; path_context := go_left;
     log_prob := 0; score := 2; finalized_denotation := 8; terminated := true |}.

Definition path_c : ParsePath :=
  {| _cases := [4; 5]; decisions := [turn; stop]; path_context := go_left;
     log_prob := 0; score := 5; finalized_denotation := 7; terminated := true |}.

Definition path_open : ParsePath :=
  {| _cases := [6]; decisions := [walk]; path_context := go_left;
     log_prob := 0; score := 1; finalized_denotation := 0; terminated := false |}.

Definition example : Example := {| context := go_left; answer := 7 |}.

(** A policy that explores every example to the same beam. *)
Definition policy (beam : Beam) : ExplorationPolicy :=
  {| get_beams := fun examples _ => (fun _ => beam) <$> examples |}.

(** A parse model that scores every case it is given: the attention and
    the subscores of a case are the case itself. *)
Definition scorer : TrainParseModel :=
  {| parse_model := tt;
     parse_model_score_breakdown := fun cases _ _ => (cases, cases) |}.

(** A decoder for utterances of up to [utter_len] tokens whose policies
    find [beam] for every example. *)
Definition decoder (normalization : string) (utter_len : Z)
    (case_weighter : CaseWeighter) (beam : Beam) : Decoder :=
  {| _glove_embeddings := glove;
     _parse_model := Some scorer;
     _value_function := Some tt;
     _case_weighter := Some case_weighter;
     _config :=
       {| value_function := tt; case_weighter := tt; inputs_caching := false;
          normalization := normalization;
          test_exploration_policy := tt; train_exploration_policy := tt |};
     _caching := false;
     _domain := tt;
     _path_checker := fun _ => true;
     _utter_len := utter_len;
     _max_stack_size := 3;
     _tb_logger := tt;
     _class_weight := {[ 0%Z := 1%float; 1%Z := 5%float ]};
     _predicate_embedder_type := "one_hot";
     _normalization := normalization;
     _predicate2index := _build_predicate_dictionary [walk; turn; stop];
     _decomposable := tt;
     _test_exploration_policy := policy beam;
     _train_exploration_policy := policy beam |}.

(** The beam the exploration of [example] ends with in the runs below. *)
Definition beam : Beam := {| _paths := [path_a; path_open; path_c] |}.

(** A beam in which the exploration has finished no path. *)
Definition unfinished_beam : Beam := {| _paths := [path_open] |}.

(** A case weighter that keeps to its contract on [beam]: one weight per
    case, two of them zero. *)
Definition weighter : CaseWeighter :=
  fun _ _ => [[0.5; 0; 2]; [-0; 1]]%float.

(** A case weighter that returns one weight, whatever the paths. *)
Definition short_weighter : CaseWeighter := fun _ _ => [[1]]%float.

#[export] Instance factories : Factories :=
  {| get_value_function := fun _ _ => tt;
     get_case_weighter := fun _ _ _ => weighter;
     build_model := fun _ _ _ => tt;
     get_exploration_policy := fun _ _ _ => policy beam |}.

Definition config (normalization : string) : Config :=
  {| value_function := tt; case_weighter := tt; inputs_caching := false;
     normalization := normalization;
     test_exploration_policy := tt; train_exploration_policy := tt |}.

End Toy.

(** * Further small instances *)

Module ToyRuntime.
Import Toy.

(** A session whose stack embedder yields one row, a keras model with a
    fixed loss and accuracy, labels "0" and "1", and a sampler that takes
    the first [k] of the population. *)
#[export] Instance runtime : Runtime :=
  {| Session := unit;
     run_stack_embedder := fun _ _ _ => [replicate 96 0.5%float];
     train_on_batch := fun _ _ _ _ => (0.25, 0.75)%float;
     int := fun s =>
       if decide (s = "0") then Some 0%Z
       else if decide (s = "1") then Some 1%Z else None;
     random_sample := fun _ population k => take k population |}.

(** "go north": the second token has no embedding in [glove]. *)
Definition go_north : ParseContext :=
  {| utterances := [ {| _tokens := ["go"] |}; {| _tokens := ["north"; "left"] |} ];
     all_objects := [] |}.

Definition path_north : ParsePath :=
  {| _cases := [7]; decisions := [walk]; path_context := go_north;
     log_prob := 0; score := 1; finalized_denotation := 7; terminated := true |}.

Definition north_beam : Beam := {| _paths := [path_north] |}.

(** [self] with another type of predicate embedder, and without parse
    model. *)
Definition with_embedder_type (self : Decoder) (predicate_embedder_type : string)
  : Decoder :=
  {| _glove_embeddings := _glove_embeddings self;
     _parse_model := _parse_model self;
     _value_function := _value_function self;
     _case_weighter := _case_weighter self;
     _config := _config self;
     _caching := _caching self;
     _domain := _domain self;
     _path_checker := _path_checker self;
     _utter_len := _utter_len self;
     _max_stack_size := _max_stack_size self;
     _tb_logger := _tb_logger self;
     _class_weight := _class_weight self;
     _predicate_embedder_type := predicate_embedder_type;
     _normalization := _normalization self;
     _predicate2index := _predicate2index self;
     _decomposable := _decomposable self;
     _test_exploration_policy := _test_exploration_policy self;
     _train_exploration_policy := _train_exploration_policy self |}.

Definition without_parse_model (self : Decoder) : Decoder :=
  {| _glove_embeddings := _glove_embeddings self;
     _parse_model := None;
     _value_function := None;
     _case_weighter := None;
     _config := _config self;
     _caching := _caching self;
     _domain := _domain self;
     _path_checker := _path_checker self;
     _utter_len := _utter_len self;
     _max_stack_size := _max_stack_size self;
     _tb_logger := _tb_logger self;
     _class_weight := _class_weight self;
     _predicate_embedder_type := _predicate_embedder_type self;
     _normalization := _normalization self;
     _predicate2index := _predicate2index self;
     _decomposable := _decomposable self;
     _test_exploration_policy := _test_exploration_policy self;
     _train_exploration_policy := _train_exploration_policy self |}.

(** Rows of a CSV file: two that can be read, one with a label that is no
    integer. *)
Definition good_rows : list (list string) :=
  [["go left"; "walk turn"; "1"]; ["go"; "stop"; "0"]].

Definition bad_row : list string := ["go"; "stop"; "yes"].

(** A file with a header line whose third field reads as 0, and 30 equal
    rows after it. *)
Definition header : list string := ["utterance"; "decisions"; "0"].

Definition many_rows : list (list string) :=
  replicate 30 ["go left"; "walk turn"; "1"].

End ToyRuntime.

(** * Properties *)

(** ** Probabilities of a beam *)

Section ProbabilityProperties.
Context `{Collaborators}.

Lemma np_min_nonempty (x : R) (rest : list R) :
  np_min (x :: rest) = Return (fold_left Rmin rest x).
Proof. reflexivity. Qed.

(** C5. For every decoder (whatever its normalization) and every beam,
    [get_probs] returns, without raising, an array with one entry per path
    of the beam; for the empty beam it returns the empty array. *)
Theorem get_probs_length (self : Decoder) (beam : Beam) :
  (exists probs : list npfloat,
      get_probs self beam = Return probs /\ length probs = length (_paths beam))
  /\ get_probs self {| _paths := [] |} = Return [].
Proof.
  split; [|reflexivity].
  unfold get_probs.
  destruct (decide (length (_paths beam) = 0)) as [Hempty|Hnonempty].
  - exists []. by rewrite Hempty.
  - destruct (decide (_normalization self = NormalizationOptions.LOCAL)).
    + eexists. split; [reflexivity|]. by rewrite length_map.
    + destruct (_paths beam) as [|path paths]; [done|].
      cbn [map]. rewrite np_min_nonempty. cbn [result_bind].
      eexists. split; [reflexivity|]. cbn [length]. by rewrite !length_map.
Qed.


(** *** The branch for global normalization *)

Lemma fold_left_Rmin_le_init (l : list R) (x : R) : (fold_left Rmin l x <= x)%R.
Proof.
  revert x. induction l as [|y l IH]; intros x; cbn.
  - lra.
  - etransitivity; [apply IH|]. apply Rmin_l.
Qed.

Lemma fold_left_Rmin_le_elem (l : list R) (x y : R) :
  y ∈ l -> (fold_left Rmin l x <= y)%R.
Proof.
  revert x. induction l as [|z l IH]; intros x Hy.
  - by apply elem_of_nil in Hy.
  - apply elem_of_cons in Hy as [->|Hy]; cbn.
    + etransitivity; [apply fold_left_Rmin_le_init|]. apply Rmin_r.
    + by apply IH.
Qed.

Lemma fold_left_Rplus_init (l : list R) (a : R) :
  fold_left Rplus l a = (a + fold_left Rplus l 0)%R.
Proof.
  revert a. induction l as [|x l IH]; intros a; cbn.
  - lra.
  - rewrite (IH (a + x)%R), (IH (0 + x)%R). lra.
Qed.

Lemma np_sum_cons (x : R) (l : list R) : np_sum (x :: l) = (x + np_sum l)%R.
Proof.
  unfold np_sum. cbn. rewrite fold_left_Rplus_init. lra.
Qed.


Lemma np_sum_zero (l : list R) : Forall (eq 0%R) l -> np_sum l = 0%R.
Proof.
  induction 1 as [|x l Hx _ IH].
  - reflexivity.
  - rewrite np_sum_cons, IH, <- Hx. lra.
Qed.


Lemma np_true_divide_finite (x y : R) :
  y <> 0%R -> np_true_divide x y = Finite (x / y).
Proof.
  intros Hy. unfold np_true_divide. by destruct (Req_dec_T y 0).
Qed.

Lemma np_true_divide_zero_zero : np_true_divide 0 0 = NaN.
Proof.
  unfold np_true_divide.
  destruct (Req_dec_T 0 0) as [_|Hne]; [|by destruct Hne].
  reflexivity.
Qed.

Lemma get_probs_global (self : Decoder) (beam : Beam) :
  _normalization self <> NormalizationOptions.LOCAL ->
  get_probs self beam =
    Return (map (fun x => np_true_divide x (np_sum (shifted_scores beam)))
              (shifted_scores beam)).
Proof.
  intros Hglobal. unfold get_probs, shifted_scores.
  destruct (_paths beam) as [|path paths]; [reflexivity|].
  destruct (decide _) as [|_]; [done|].
  by destruct (decide _).
Qed.



(** When all paths of a non-empty beam have the same score, every shifted
    score and their sum are zero, and every probability is nan: numpy
    divides 0 by 0. A beam of a single path is the first such beam. *)
Lemma get_probs_global_equal_scores (self : Decoder) (beam : Beam) (c : R) :
  _normalization self <> NormalizationOptions.LOCAL ->
  Forall (fun path => score path = c) (_paths beam) ->
  get_probs self beam = Return (replicate (length (_paths beam)) NaN).
Proof.
  intros Hglobal Hequal.
  assert (Forall (eq 0%R) (shifted_scores beam)) as Hzero.
  { unfold shifted_scores. destruct (_paths beam) as [|path paths]; [constructor|].
    apply Forall_fmap, Forall_fmap.
    assert (fold_left Rmin (map score paths) (score path) = c) as ->.
    { apply Forall_cons in Hequal as [-> Hrest].
      induction Hrest as [|path' paths' Hpath' _ IH]; [done|].
      cbn [map fold_left]. rewrite Hpath'. by rewrite Rmin_left by lra. }
    eapply Forall_impl; [exact Hequal|]. intros path' Hpath'. cbn. rewrite Hpath'. lra. }
  rewrite get_probs_global by done.
  rewrite (np_sum_zero _ Hzero). f_equal.
  assert (length (shifted_scores beam) = length (_paths beam)) as <-.
  { unfold shifted_scores. destruct (_paths beam); [done|].
    by rewrite !length_map. }
  induction Hzero as [|x l <- _ IH]; [done|].
  cbn. by rewrite np_true_divide_zero_zero, IH.
Qed.

End ProbabilityProperties.

(** ** Prediction *)

Section PredictionProperties.
Context `{Collaborators}.

Lemma get_terminated_paths (beam : Beam) (path : ParsePath) :
  path ∈ _paths (get_terminated beam) <-> path ∈ _paths beam /\ terminated path = true.
Proof.
  unfold get_terminated. cbn. rewrite !list_elem_of_In, filter_In. tauto.
Qed.

(** C8. [predictions] takes the policy from the attribute that matches
    [train], asks it for the beams of the batch, and returns one beam per
    beam received, in the same order, holding that beam's terminated
    paths and no others. *)
Theorem predictions_terminated (self : Decoder) (examples : list Example)
    (train verbose : bool) :
  let policy :=
    if train then _train_exploration_policy self else _test_exploration_policy self in
  let beams := get_beams policy examples verbose in
  exploration_policy self train = policy
  /\ predictions self examples train verbose = map get_terminated beams
  /\ length (predictions self examples train verbose) = length beams
  /\ (forall (i : nat) (beam : Beam),
         beams !! i = Some beam ->
         exists out : Beam,
           predictions self examples train verbose !! i = Some out
           /\ _paths out = List.filter terminated (_paths beam)
           /\ (forall path : ParsePath,
                  path ∈ _paths out <-> path ∈ _paths beam /\ terminated path = true)).
Proof.
  intros policy beams. unfold predictions, exploration_policy.
  fold policy. fold beams.
  split; [reflexivity|]. split; [reflexivity|]. split.
  - apply length_map.
  - intros i beam Hi. exists (get_terminated beam).
    split; [|split].
    + by rewrite list_lookup_fmap, Hi.
    + reflexivity.
    + apply get_terminated_paths.
Qed.

End PredictionProperties.

(** ** Construction *)

Section ConstructionProperties.
Context `{Factories}.

(** C3. With [normalization = global] in the configuration, [__init__]
    raises ValueError and returns no decoder. By then it has called at
    most the factories of the value function and of the case weighter: the
    predicate dictionary, the decomposable model and the exploration
    policies are never built. *)
Theorem init_global_raises (parse_model_ : option TrainParseModel) (config : Config)
    (domain : Domain) (glove_embeddings : gmap string Embedding)
    (predicates : list Predicate) (utter_len max_stack_size : Z)
    (tb_logger : TBLogger) (predicate_embedder_type : string) :
  normalization config = NormalizationOptions.GLOBAL ->
  exists calls : list FactoryCall,
    __init__ parse_model_ config domain glove_embeddings predicates utter_len
      max_stack_size tb_logger predicate_embedder_type
    = (Raise (ValueError "Global normalization is no longer supported."), calls)
    /\ (BuildModel ∉ calls)
    /\ (forall train : bool, GetExplorationPolicy train ∉ calls).
Proof.
  intros Hglobal. unfold __init__. rewrite Hglobal.
  destruct (decide _) as [_|Hne]; [|done].
  eexists. split; [reflexivity|].
  destruct parse_model_; (split; [|intros train]); intros Hin;
    repeat (apply elem_of_cons in Hin as [?|Hin]; [done|]);
    by apply elem_of_nil in Hin.
Qed.

(** A decoder that [__init__] returns has a normalization other than
    [global], the two policies made by [get_exploration_policy], and the
    counters at zero. *)
Lemma init_returns (parse_model_ : option TrainParseModel) (config : Config)
    (domain : Domain) (glove_embeddings : gmap string Embedding)
    (predicates : list Predicate) (utter_len max_stack_size : Z)
    (tb_logger : TBLogger) (predicate_embedder_type : string)
    (self : Decoder) (st : DecoderState) (calls : list FactoryCall) :
  __init__ parse_model_ config domain glove_embeddings predicates utter_len
    max_stack_size tb_logger predicate_embedder_type = (Return (self, st), calls) ->
  _normalization self <> NormalizationOptions.GLOBAL
  /\ st = initial_state
  /\ _predicate2index self = _build_predicate_dictionary predicates
  /\ (forall train : bool,
         exploration_policy self train =
         get_exploration_policy
           (if train then train_exploration_policy config
            else test_exploration_policy config)
           (normalization config) train).
Proof.
  unfold __init__. destruct (decide _) as [|Hne]; [done|].
  intros [= <- <- _]. cbn. split; [done|]. split; [done|]. split; [done|].
  by intros [].
Qed.

End ConstructionProperties.

(** ** The predicate dictionary and one-hot encoding *)

Lemma fill_dictionary_lookup (predicates : list Predicate) (d : gmap string nat)
    (i : nat) (nm : string) :
  fill_dictionary d i predicates !! nm =
    match last_index_from i nm (name <$> predicates) with
    | Some j => Some j
    | None => d !! nm
    end.
Proof.
  revert d i. induction predicates as [|p predicates IH]; intros d i; [done|].
  unfold fill_dictionary in *. cbn. rewrite IH.
  destruct (last_index_from (S i) nm (name <$> predicates)); [done|].
  rewrite lookup_insert. by destruct (decide (name p = nm)).
Qed.

Lemma last_index_from_spec (names : list string) (i k : nat) (nm : string) :
  last_index_from i nm names = Some k <->
  exists j : nat,
    k = i + j /\ names !! j = Some nm
    /\ forall j' : nat, j < j' -> names !! j' <> Some nm.
Proof.
  revert i k. induction names as [|x names IH]; intros i k; cbn.
  - split; [done|]. by intros (j & _ & Hj & _).
  - destruct (last_index_from (S i) nm names) as [k'|] eqn:Hlast.
    + apply IH in Hlast as (j & -> & Hj & Hafter). split.
      * intros [= <-]. exists (S j). split; [lia|]. split; [done|].
        intros [|j'] Hlt; [lia|]. cbn. apply Hafter. lia.
      * intros ([|j0] & -> & Hj0 & Hafter0).
        -- by destruct (Hafter0 (S j)); [lia|].
        -- cbn in Hj0. destruct (decide (j < j0)) as [Hlt|Hge].
           ++ by destruct (Hafter j0).
           ++ destruct (decide (j0 < j)) as [Hlt|Hge'].
              ** by destruct (Hafter0 (S j)); [lia|].
              ** f_equal. lia.
    + assert (forall j, names !! j <> Some nm) as Hnone.
      { intros j Hj.
        assert (exists k0, last_index_from (S i) nm names = Some k0) as [k0 Hk0];
          [|congruence].
        clear IH Hlast. revert i j Hj.
        induction names as [|y names IHn]; intros i j Hj; [done|]. cbn.
        destruct j as [|j]; cbn in Hj.
        - injection Hj as ->.
          destruct (last_index_from (S (S i)) nm names); [by eexists|].
          rewrite decide_True by done. by eexists.
        - destruct (IHn (S i) j Hj) as [k1 ->]. by eexists. }
      destruct (decide (x = nm)) as [->|Hne]; split.
      * intros [= <-]. exists 0. split; [lia|]. split; [done|].
        intros [|j'] Hlt; [lia|]. cbn. apply Hnone.
      * intros ([|j] & -> & Hj & _); [f_equal; lia|].
        cbn in Hj. by destruct (Hnone j).
      * done.
      * intros ([|j] & -> & Hj & _); cbn in Hj; [congruence|].
        by destruct (Hnone j).
Qed.

(** A name is mapped to the position of its last occurrence. *)
Lemma build_predicate_dictionary_lookup (predicates : list Predicate)
    (nm : string) (i : nat) :
  _build_predicate_dictionary predicates !! nm = Some i <->
  (name <$> predicates) !! i = Some nm
  /\ forall j : nat, i < j -> (name <$> predicates) !! j <> Some nm.
Proof.
  change (_build_predicate_dictionary predicates)
    with (fill_dictionary ∅ 0 predicates).
  rewrite fill_dictionary_lookup.
  destruct (last_index_from 0 nm (name <$> predicates)) as [k|] eqn:Hlast.
  - apply last_index_from_spec in Hlast as (j & -> & Hj & Hafter). cbn.
    split.
    + by intros [= <-].
    + intros [Hi Hafter']. f_equal.
      destruct (decide (i < j)) as [Hlt|Hge]; [by destruct (Hafter' j)|].
      destruct (decide (j < i)) as [Hlt|Hge']; [by destruct (Hafter i)|]. lia.
  - rewrite lookup_empty. split; [done|]. intros [Hi Hafter].
    assert (last_index_from 0 nm (name <$> predicates) = Some (0 + i)) as Heq;
      [|congruence].
    apply last_index_from_spec. by exists i.
Qed.

Lemma fill_dictionary_dom (predicates : list Predicate) (d : gmap string nat) (i : nat) :
  dom (fill_dictionary d i predicates) = dom d ∪ list_to_set (name <$> predicates).
Proof.
  revert d i. induction predicates as [|p predicates IH]; intros d i.
  - cbn. by rewrite (right_id_L ∅ (∪)).
  - unfold fill_dictionary in *. cbn. rewrite IH, dom_insert_L.
    by rewrite (comm_L (∪) {[name p]} (dom d)), (assoc_L (∪)).
Qed.

Lemma build_predicate_dictionary_size (predicates : list Predicate) :
  NoDup (name <$> predicates) ->
  size (_build_predicate_dictionary predicates) = length predicates.
Proof.
  intros Hnodup.
  change (_build_predicate_dictionary predicates)
    with (fill_dictionary ∅ 0 predicates).
  rewrite <- size_dom, fill_dictionary_dom, dom_empty_L, (left_id_L ∅ (∪)).
  rewrite size_list_to_set by done. apply length_fmap.
Qed.

Lemma result_map_Return {A B : Type} (f : A -> result B) (g : A -> B) (l : list A) :
  Forall (fun x => f x = Return (g x)) l -> result_map f l = Return (g <$> l).
Proof.
  induction 1 as [|x l Hx _ IH]; [done|]. cbn. by rewrite Hx, IH.
Qed.

(** The one-hot vector of length [n] for the index [j]. *)
Lemma one_hot_vector (n j : nat) :
  j < n ->
  let row := <[j := 1%float]> (replicate n 0%float) in
  length row = n
  /\ row !! j = Some 1%float
  /\ forall j' : nat, j' <> j -> j' < n -> row !! j' = Some 0%float.
Proof.
  intros Hj row. subst row. split; [|split].
  - by rewrite length_insert, length_replicate.
  - apply list_lookup_insert_eq. by rewrite length_replicate.
  - intros j' Hne Hj'. rewrite list_lookup_insert_ne by done.
    by apply lookup_replicate_2.
Qed.

(** C7, as amended. A name is mapped to the position of its last
    occurrence in the list of predicates. When the names are pairwise
    distinct, the dictionary has one entry per predicate and maps the name
    of the [i]-th predicate to [i]; one-hot encoding of decisions that are
    names of predicates then yields, per decision, a vector as long as the
    dictionary with 1 at the index of the decision and 0 elsewhere. *)
Theorem predicate_dictionary_one_hot (predicates : list Predicate) :
  let names := name <$> predicates in
  let pred_dict := _build_predicate_dictionary predicates in
  (forall (nm : string) (i : nat),
      pred_dict !! nm = Some i <->
      names !! i = Some nm /\ forall j : nat, i < j -> names !! j <> Some nm)
  /\ (NoDup names ->
      size pred_dict = length predicates
      /\ (forall (i : nat) (p : Predicate),
             predicates !! i = Some p -> pred_dict !! name p = Some i)
      /\ (forall decisions : list string,
             Forall (fun decision => decision ∈ names) decisions ->
             exists rows : list (list float),
               decisions_to_one_hot pred_dict decisions = Return rows
               /\ length rows = length decisions
               /\ (forall (k : nat) (decision : string),
                      decisions !! k = Some decision ->
                      exists (j : nat) (row : list float),
                        pred_dict !! decision = Some j
                        /\ rows !! k = Some row
                        /\ length row = size pred_dict
                        /\ row !! j = Some 1%float
                        /\ (forall j' : nat,
                               j' <> j -> j' < size pred_dict ->
                               row !! j' = Some 0%float)))).
Proof.
  intros names pred_dict. split.
  { intros nm i. apply build_predicate_dictionary_lookup. }
  intros Hnodup.
  pose proof (build_predicate_dictionary_size predicates Hnodup) as Hsize.
  fold pred_dict in Hsize.
  assert (forall (i : nat) (nm : string),
             names !! i = Some nm -> pred_dict !! nm = Some i) as Hindex.
  { intros i nm Hi. apply build_predicate_dictionary_lookup. split; [done|].
    intros j Hlt Hj. pose proof (NoDup_lookup _ _ _ _ Hnodup Hi Hj). lia. }
  split; [done|]. split.
  { intros i p Hi. apply Hindex. subst names. by rewrite list_lookup_fmap, Hi. }
  intros decisions Hknown.
  (* the row computed for a decision that is in the dictionary *)
  set (row_of := fun decision : string =>
         match pred_dict !! decision with
         | Some j => <[j := 1%float]> (replicate (size pred_dict) 0%float)
         | None => []
         end).
  assert (forall decision, decision ∈ names ->
            exists j, pred_dict !! decision = Some j /\ j < size pred_dict)
    as Hbound.
  { intros decision Hin. apply list_elem_of_lookup in Hin as [j Hj].
    exists j. split; [by apply Hindex|].
    rewrite Hsize. apply lookup_lt_Some in Hj. subst names.
    by rewrite length_fmap in Hj. }
  exists (row_of <$> decisions). split; [|split].
  - unfold decisions_to_one_hot. apply result_map_Return.
    eapply Forall_impl; [exact Hknown|]. intros decision Hin. cbn in Hin.
    destruct (Hbound decision Hin) as (j & Hj & Hlt).
    unfold one_hot_decision, row_of. rewrite Hj.
    by rewrite decide_True by done.
  - apply length_fmap.
  - intros k decision Hk.
    assert (decision ∈ names) as Hin.
    { apply (proj1 (Forall_forall _ _) Hknown decision).
      by eapply list_elem_of_lookup_2. }
    destruct (Hbound decision Hin) as (j & Hj & Hlt).
    exists j, (row_of decision). split; [done|]. split.
    { by rewrite list_lookup_fmap, Hk. }
    unfold row_of. rewrite Hj. by apply one_hot_vector.
Qed.

(** ** Score breakdown *)

Section ScoreBreakdownProperties.
Context `{Collaborators}.

Lemma append_each {A : Type} (l acc : list A) :
  fold_left (fun cases case => cases ++ [case]) l acc = acc ++ l.
Proof.
  revert acc. induction l as [|x l IH]; intros acc; cbn.
  - by rewrite app_nil_r.
  - by rewrite IH, <- app_assoc.
Qed.

Lemma flatten_paths_from (paths : list ParsePath) (cumul : list nat) (cases : list Case) :
  fold_left
    (fun '(cumul, cases) path =>
       let cases := fold_left (fun cases case => cases ++ [case]) (_cases path) cases in
       (cumul ++ [length cases], cases))
    paths (cumul, cases)
  = (cumul ++ prefix_lengths (length cases) paths,
     cases ++ flatten (_cases <$> paths)).
Proof.
  revert cumul cases. induction paths as [|path paths IH]; intros cumul cases.
  - cbn. by rewrite !app_nil_r.
  - cbn. rewrite IH, append_each, length_app, <- !app_assoc. reflexivity.
Qed.

Lemma flatten_paths_spec (paths : list ParsePath) :
  flatten_paths paths = (0 :: prefix_lengths 0 paths, flatten (_cases <$> paths)).
Proof. unfold flatten_paths. by rewrite flatten_paths_from. Qed.

Lemma length_prefix_lengths (base : nat) (paths : list ParsePath) :
  length (prefix_lengths base paths) = length paths.
Proof.
  revert base. induction paths as [|path paths IH]; intros base; cbn; [done|].
  by rewrite IH.
Qed.

(** The grouping loop, when every index it reads is within [cumul]. *)
Lemma grouping_loop {A B : Type} (attentions : list A) (subscores : list B)
    (cumul : list nat) (n a : nat) (grouped_attentions : list (list A))
    (grouped_subscores : list (list B)) :
  a + n < length cumul ->
  result_for (seq a n)
    (fun i '(grouped_attentions, grouped_subscores) =>
       result_bind (list_get cumul i) (fun lo =>
       result_bind (list_get cumul (i + 1)) (fun hi =>
       Return (grouped_attentions ++ [slice attentions lo hi],
               grouped_subscores ++ [slice subscores lo hi]))))
    (grouped_attentions, grouped_subscores)
  = Return
      (grouped_attentions
         ++ ((fun i => slice attentions (nth i cumul 0) (nth (i + 1) cumul 0)) <$> seq a n),
       grouped_subscores
         ++ ((fun i => slice subscores (nth i cumul 0) (nth (i + 1) cumul 0)) <$> seq a n)).
Proof.
  revert a grouped_attentions grouped_subscores.
  induction n as [|n IH]; intros a ga gs Hlen.
  - cbn. by rewrite !app_nil_r.
  - cbn [seq result_for]. unfold list_get at 1 2.
    destruct (lookup_lt_is_Some_2 cumul a) as [lo Hlo]; [lia|].
    destruct (lookup_lt_is_Some_2 cumul (a + 1)) as [hi Hhi]; [lia|].
    rewrite Hlo, Hhi. cbn [result_bind].
    rewrite IH by lia. cbn [fmap list_fmap].
    rewrite (nth_lookup_Some _ _ _ _ Hlo), (nth_lookup_Some _ _ _ _ Hhi).
    by rewrite <- !app_assoc.
Qed.

Lemma slices_split_by {A : Type} (scores : list A) (paths : list ParsePath) (base : nat) :
  (fun i =>
     slice scores (nth i (base :: prefix_lengths base paths) 0)
       (nth (i + 1) (base :: prefix_lengths base paths) 0))
    <$> seq 0 (length paths)
  = split_by (drop base scores) paths.
Proof.
  revert base. induction paths as [|path paths IH]; intros base; [done|].
  cbn [length seq fmap list_fmap split_by prefix_lengths]. f_equal.
  - cbn. unfold slice. f_equal. lia.
  - rewrite <- fmap_S_seq, <- list_fmap_compose, drop_drop.
    rewrite <- (IH (base + length (_cases path))).
    apply list_fmap_ext. intros _ i _. reflexivity.
Qed.



(** What [score_breakdown] computes, whatever the parse model returns. *)
Lemma score_breakdown_split (self : Decoder) (parse_model : TrainParseModel)
    (paths : list ParsePath) :
  _parse_model self = Some parse_model ->
  let cases := flatten (_cases <$> paths) in
  let scores := parse_model_score_breakdown parse_model cases false false in
  score_breakdown self paths = Return (split_by scores.1 paths, split_by scores.2 paths).
Proof.
  intros Hmodel cases scores. unfold score_breakdown.
  destruct (decide (length paths = 0)) as [Hempty|Hnonempty].
  { by destruct paths. }
  rewrite flatten_paths_spec, Hmodel. fold cases. fold scores.
  destruct scores as [attentions subscores].
  rewrite grouping_loop by (cbn; rewrite length_prefix_lengths; lia).
  by rewrite !slices_split_by.
Qed.


End ScoreBreakdownProperties.

(** ** Training *)

Section TrainingProperties.
Context `{Collaborators}.

(** *** The monad *)

Lemma bind_Return {A B : Type} (m : M A) (k : A -> M B) (st st1 : DecoderState) (a : A) :
  m st = (Return a, st1) -> bind m k st = k a st1.
Proof. intros Hm. unfold bind. by rewrite Hm. Qed.

Lemma bind_Raise {A B : Type} (m : M A) (k : A -> M B) (st st1 : DecoderState) (e : exn) :
  m st = (Raise e, st1) -> bind m k st = (Raise e, st1).
Proof. intros Hm. unfold bind. by rewrite Hm. Qed.

Lemma bind_Return_inv {A B : Type} (m : M A) (k : A -> M B) (st st' : DecoderState) (b : B) :
  bind m k st = (Return b, st') ->
  exists (a : A) (st1 : DecoderState), m st = (Return a, st1) /\ k a st1 = (Return b, st').
Proof.
  unfold bind. destruct (m st) as [[a|e] st1]; [|done]. intros Hk. by exists a, st1.
Qed.

(** A property of the state that every iteration keeps is kept by the
    loop, whether it ends normally or by an exception. *)
Lemma for_loop_preserves {A L : Type} (P : DecoderState -> Prop) (body : A -> L -> M L) :
  (forall x locals st, P st -> P (body x locals st).2) ->
  forall l locals st, P st -> P (for_loop l body locals st).2.
Proof.
  intros Hbody l. induction l as [|x l IH]; intros locals st Hst; [done|].
  cbn [for_loop]. unfold bind.
  pose proof (Hbody x locals st Hst) as Hx.
  destruct (body x locals st) as [[locals'|e] st1]; cbn in *; [|done].
  by apply IH.
Qed.

(** *** The batches for the decomposable model *)

(** What [train_decomposable_batches] and its loops leave alone: the
    calls made to the trainable models; and the step counter once it is
    past the first statement. *)
Lemma path_body_preserves (P : DecoderState -> Prop) (example : Example)
    (utter_embds : list Embedding) (sentence_for_print world_state : string)
    (idx_path : nat * ParsePath) (locals : Locals.t) (st : DecoderState) :
  (forall (b : bool) (s : DecoderState), P s -> P (count_prediction b s)) ->
  P st ->
  P (path_body example utter_embds sentence_for_print world_state idx_path locals st).2.
Proof.
  intros Hcount Hst. destruct idx_path as [idx path]. cbn. by apply Hcount.
Qed.

Lemma example_body_preserves (P : DecoderState -> Prop) (self : Decoder)
    (example_beam : Example * Beam) (locals : Locals.t) (st : DecoderState) :
  (forall (b : bool) (s : DecoderState), P s -> P (count_prediction b s)) ->
  P st ->
  P (example_body self example_beam locals st).2.
Proof.
  intros Hcount Hst. destruct example_beam as [example beam]. unfold example_body.
  destruct (_paths beam) as [|first_path paths]; [done|].
  unfold bind, lift.
  destruct (embed_utterances _ _) as [[utter_embds sentence]|e]; [|done].
  destruct (pad_utterance _ _) as [padded|e]; [|done].
  apply for_loop_preserves; [|done].
  intros x l s Hs. by apply path_body_preserves.
Qed.

Lemma train_decomposable_batches_preserves (P : DecoderState -> Prop) (self : Decoder)
    (beams : list Beam) (examples : list Example) (st : DecoderState) :
  (forall (b : bool) (s : DecoderState), P s -> P (count_prediction b s)) ->
  P (set_train_step_count (_train_step_count st + 1) st) ->
  P (train_decomposable_batches self beams examples st).2.
Proof.
  intros Hcount Hst. unfold train_decomposable_batches, bind, modify, gets.
  cbn -[for_loop]. destruct (decide _); [done|].
  set (st1 := set_train_step_count _ _) in *.
  pose proof (for_loop_preserves P (example_body self)
                (fun x l s Hs => example_body_preserves P self x l s Hcount Hs)
                (zip examples beams) Locals.initial st1 Hst) as Hloop.
  destruct (for_loop _ _ _ _) as [[locals|e] st2]; cbn in *; [|done].
  by destruct (Locals.beam_batch_correct locals).
Qed.

Lemma train_decomposable_batches_model_updates (self : Decoder) (beams : list Beam)
    (examples : list Example) (st : DecoderState) :
  model_updates (train_decomposable_batches self beams examples st).2 = model_updates st.
Proof.
  by apply (train_decomposable_batches_preserves
              (fun s => model_updates s = model_updates st)).
Qed.

Lemma initial_state_invariant : counter_invariant initial_state.
Proof. unfold counter_invariant. cbn. lia. Qed.

Lemma train_decomposable_batches_invariant (self : Decoder) (beams : list Beam)
    (examples : list Example) (st : DecoderState) :
  counter_invariant st ->
  counter_invariant (train_decomposable_batches self beams examples st).2.
Proof.
  intros Hst. apply (train_decomposable_batches_preserves counter_invariant); [done|].
  unfold counter_invariant in *. cbn. lia.
Qed.

(** The loop over a batch in which no beam has a path: every iteration is
    the [continue] of the first [if]. *)
Lemma for_loop_empty_beams (self : Decoder) (batch : list (Example * Beam))
    (locals : Locals.t) (st : DecoderState) :
  Forall (fun example_beam => _paths example_beam.2 = []) batch ->
  for_loop batch (example_body self) locals st = (Return locals, st).
Proof.
  induction 1 as [|[example beam] batch Hempty _ IH]; [done|].
  cbn [for_loop]. rewrite (bind_Return _ _ st st locals); [exact IH|].
  unfold example_body. cbn in Hempty. by rewrite Hempty.
Qed.

(** C10. Called on a batch in which every beam has zero paths (the empty
    batch included), [train_decomposable_batches] goes through its loop
    without binding [beam_batch_correct] and raises UnboundLocalError for
    that name; the decoder is then left with its step counter one higher
    than before, and otherwise as it was. *)
Theorem train_decomposable_batches_empty_beams (self : Decoder) (beams : list Beam)
    (examples : list Example) (st : DecoderState) :
  counter_invariant st ->
  Forall (fun example_beam => _paths example_beam.2 = []) (zip examples beams) ->
  (forall s : DecoderState,
      exists locals : Locals.t,
        for_loop (zip examples beams) (example_body self) Locals.initial s
        = (Return locals, s)
        /\ Locals.beam_batch_correct locals = None)
  /\ exists st' : DecoderState,
      train_decomposable_batches self beams examples st
      = (Raise (UnboundLocalError "beam_batch_correct"), st')
      /\ st' = set_train_step_count (_train_step_count st + 1) st
      /\ _train_step_count st' = (_train_step_count st + 1)%Z
      /\ st' <> st.
Proof.
  intros Hcounter Hempty. split.
  { intros s. exists Locals.initial. by rewrite for_loop_empty_beams. }
  eexists. split; [|split; [reflexivity|split; [reflexivity|]]].
  - unfold train_decomposable_batches, bind, modify, gets. cbn -[for_loop].
    unfold counter_invariant in Hcounter.
    destruct (decide _) as [Hneg|_]; [lia|].
    by rewrite for_loop_empty_beams.
  - intros Heq. apply (f_equal _train_step_count) in Heq. cbn in Heq. lia.
Qed.

(** *** The training step *)

Lemma total_cases_flatten (paths : Beam) :
  total_cases paths = length (flatten (_cases <$> _paths paths)).
Proof.
  unfold total_cases, flatten.
  assert (forall l a,
             fold_left (fun n p => n + length (_cases p)) l a
             = a + length (concat (_cases <$> l))) as Hfold.
  { induction l as [|p l IH]; intros a; cbn; [lia|].
    rewrite IH, length_app. lia. }
  by rewrite Hfold.
Qed.

Lemma weigh_example_state (self : Decoder) (example_paths : Example * Beam)
    (acc : list Case * list float) (st : DecoderState) :
  (weigh_example self example_paths acc st).2 = st.
Proof.
  destruct example_paths as [example paths], acc as [all_cases all_case_weights].
  unfold weigh_example. destruct (_case_weighter self); [|done].
  by destruct (decide _).
Qed.

(** The first loop of [train_step] does not touch the decoder. *)
Lemma weigh_loop_state (self : Decoder) (batch : list (Example * Beam))
    (acc : list Case * list float) (st : DecoderState) :
  (for_loop batch (weigh_example self) acc st).2 = st.
Proof.
  apply (for_loop_preserves (fun s => s = st)); [|done].
  intros x locals s ->. apply weigh_example_state.
Qed.

Lemma weigh_loop_Return (self : Decoder) (case_weighter : CaseWeighter)
    (batch : list (Example * Beam)) (all_cases : list Case)
    (all_case_weights : list float) (st : DecoderState) :
  _case_weighter self = Some case_weighter ->
  Forall (weights_match case_weighter) batch ->
  for_loop batch (weigh_example self) (all_cases, all_case_weights) st
  = (Return (all_cases ++ batch_cases batch,
             all_case_weights ++ batch_weights case_weighter batch), st).
Proof.
  intros Hweighter Hmatch. revert all_cases all_case_weights.
  induction Hmatch as [|[example paths] batch Hhead _ IH]; intros all_cases all_case_weights.
  - cbn. by rewrite !app_nil_r.
  - cbn [for_loop].
    rewrite (bind_Return _ _ st st
               (all_cases ++ flatten (_cases <$> _paths paths),
                all_case_weights ++ flatten (case_weighter paths example))).
    + rewrite IH. unfold batch_cases, batch_weights, flatten. cbn.
      by rewrite <- !app_assoc.
    + unfold weigh_example. rewrite Hweighter.
      unfold weights_match in Hhead. cbn in Hhead.
      by rewrite decide_True by done.
Qed.

(** The loop stops with the assertion at the first example whose weights
    do not match its cases. *)
Lemma weigh_loop_Raise (self : Decoder) (case_weighter : CaseWeighter)
    (batch : list (Example * Beam)) (acc : list Case * list float) (st : DecoderState) :
  _case_weighter self = Some case_weighter ->
  Exists (fun example_paths => ~ weights_match case_weighter example_paths) batch ->
  for_loop batch (weigh_example self) acc st = (Raise AssertionError, st).
Proof.
  intros Hweighter. revert acc.
  induction batch as [|[example paths] batch IH]; intros [all_cases all_case_weights] Hbad.
  - by apply Exists_nil in Hbad.
  - cbn [for_loop].
    destruct (decide (weights_match case_weighter (example, paths))) as [Hok|Hno].
    + erewrite bind_Return.
      * apply IH. apply Exists_cons in Hbad as [Hbad|Hbad]; [done|exact Hbad].
      * unfold weigh_example. rewrite Hweighter.
        unfold weights_match in Hok. cbn in Hok. by rewrite decide_True by done.
    + apply bind_Raise. unfold weigh_example. rewrite Hweighter.
      unfold weights_match in Hno. cbn in Hno. by rewrite decide_False by done.
Qed.

(** When the loop ends normally, every assertion held (or there was no
    example at all), and the two lists hold the cases and the weights of
    the batch. *)
Lemma weigh_loop_Return_inv (self : Decoder) (batch : list (Example * Beam))
    (acc result : list Case * list float) (st st' : DecoderState) :
  for_loop batch (weigh_example self) acc st = (Return result, st') ->
  st' = st
  /\ ((batch = [] /\ result = acc)
      \/ exists case_weighter : CaseWeighter,
          _case_weighter self = Some case_weighter
          /\ Forall (weights_match case_weighter) batch
          /\ result = (acc.1 ++ batch_cases batch,
                       acc.2 ++ batch_weights case_weighter batch)).
Proof.
  intros Hloop. split.
  { pose proof (weigh_loop_state self batch acc st) as Hst. by rewrite Hloop in Hst. }
  destruct (_case_weighter self) as [case_weighter|] eqn:Hweighter.
  - right. exists case_weighter. split; [done|].
    destruct (decide (Forall (weights_match case_weighter) batch)) as [Hall|Hnot].
    + split; [done|]. destruct acc as [all_cases all_case_weights].
      rewrite (weigh_loop_Return self case_weighter) in Hloop by done.
      by injection Hloop as <- _.
    + apply not_Forall_Exists in Hnot; [|apply _].
      by rewrite (weigh_loop_Raise self case_weighter) in Hloop.
  - left. destruct batch as [|[example paths] batch].
    + cbn in Hloop. by injection Hloop as <- _.
    + cbn [for_loop] in Hloop. destruct acc as [all_cases all_case_weights].
      rewrite (bind_Raise _ _ st st TypeError) in Hloop; [done|].
      unfold weigh_example. by rewrite Hweighter.
Qed.

Lemma batch_lengths (case_weighter : CaseWeighter) (batch : list (Example * Beam)) :
  Forall (weights_match case_weighter) batch ->
  length (batch_cases batch) = length (batch_weights case_weighter batch).
Proof.
  unfold batch_cases, batch_weights, flatten.
  induction 1 as [|[example paths] batch Hhead _ IH]; [done|].
  cbn. rewrite !length_app, IH. f_equal.
  unfold weights_match in Hhead. cbn in Hhead.
  rewrite total_cases_flatten in Hhead. unfold flatten in Hhead.
  by rewrite Hhead.
Qed.

(** The pruning loop keeps the pairs with a non-zero weight, in order. *)
Lemma prune_filter (all_cases : list Case) (all_case_weights : list float) :
  let kept :=
    filter (fun case_weight : Case * float => nonzero case_weight.2 = true)
      (zip all_cases all_case_weights) in
  prune all_cases all_case_weights = (kept.*1, kept.*2).
Proof.
  cbn zeta. unfold prune.
  assert (forall (l : list (Case * float)) cases_to_reinforce weights_to_reinforce,
             fold_left
               (fun '(cases_to_reinforce, weights_to_reinforce) '(case, weight) =>
                  if nonzero weight
                  then (cases_to_reinforce ++ [case], weights_to_reinforce ++ [weight])
                  else (cases_to_reinforce, weights_to_reinforce))
               l (cases_to_reinforce, weights_to_reinforce)
             = (cases_to_reinforce
                  ++ (filter (fun cw : Case * float => nonzero cw.2 = true) l).*1,
                weights_to_reinforce
                  ++ (filter (fun cw : Case * float => nonzero cw.2 = true) l).*2))
    as Hfold.
  { induction l as [|[case weight] l IH]; intros cs ws.
    - cbn. by rewrite !app_nil_r.
    - cbn [fold_left]. rewrite filter_cons. cbn.
      destruct (nonzero weight) eqn:Hweight.
      + rewrite IH, decide_True by done. cbn. by rewrite <- !app_assoc.
      + rewrite IH, decide_False by done. reflexivity. }
  by rewrite Hfold.
Qed.

(** Whatever [train_decomposable_batches] does, a batch with an example
    whose weights do not match its cases makes [train_step] raise before
    it has called a trainable model. *)
Lemma train_step_mismatch_raises (self : Decoder) (examples : list Example)
    (st : DecoderState) (case_weighter : CaseWeighter) :
  _case_weighter self = Some case_weighter ->
  Exists (fun example_paths => ~ weights_match case_weighter example_paths)
    (zip examples (predictions self examples true false)) ->
  exists (e : exn) (st' : DecoderState),
    train_step self examples st = (Raise e, st')
    /\ model_updates st' = model_updates st.
Proof.
  intros Hweighter Hbad.
  pose proof (train_decomposable_batches_model_updates self
                (predictions self examples true false) examples st) as Hupdates.
  unfold train_step.
  destruct (train_decomposable_batches self _ examples st) as [[data|e] st1] eqn:Hbatches.
  - exists AssertionError, (set_decomposable_data data st1). split; [|exact Hupdates].
    erewrite bind_Return by exact Hbatches.
    erewrite bind_Return by reflexivity.
    apply bind_Raise. by apply weigh_loop_Raise with (case_weighter := case_weighter).
  - exists e, st1. split; [|exact Hupdates]. by apply bind_Raise.
Qed.

(** [train_step] keeps the step counter non-negative, however it ends. *)
Lemma train_step_invariant (self : Decoder) (examples : list Example) (st : DecoderState) :
  counter_invariant st -> counter_invariant (train_step self examples st).2.
Proof.
  intros Hst.
  pose proof (train_decomposable_batches_invariant self
                (predictions self examples true false) examples st Hst) as Hbatches.
  unfold train_step, bind at 1.
  destruct (train_decomposable_batches self _ examples st) as [[data|e] st1]; [|done].
  unfold bind at 1, modify. unfold bind at 1.
  pose proof (weigh_loop_state self (zip examples (predictions self examples true false))
                ([], []) (set_decomposable_data data st1)) as Hloop.
  destruct (for_loop _ (weigh_example self) _ _) as [[[cases weights]|e] st2];
    cbn in Hloop; subst st2; [|done].
  destruct (prune cases weights) as [cases_to_reinforce weights_to_reinforce].
  unfold bind, modify, raise.
  destruct (_value_function self); [|done].
  by destruct (_parse_model self).
Qed.


(** C2. When [train_step] returns, it has made exactly two calls to the
    trainable models, the second one to the parse model. The cases and
    weights of that call are those pairs of the cases of the batch and
    their weights, taken in order, whose weight is not zero: no pair with
    a zero weight is among them, every pair with a non-zero weight is, and
    they stand in the order they have in the batch. *)
Theorem train_step_prunes (self : Decoder) (examples : list Example)
    (st st' : DecoderState) :
  train_step self examples st = (Return tt, st') ->
  let batch := zip examples (predictions self examples true false) in
  let all_cases := batch_cases batch in
  let all_case_weights :=
    match _case_weighter self with
    | Some case_weighter => batch_weights case_weighter batch
    | None => []
    end in
  exists (vf_examples : list ValueFunctionExample)
         (cases_to_reinforce : list Case) (weights_to_reinforce : list float),
    model_updates st' =
      model_updates st
        ++ [ValueFunctionTrainStep vf_examples;
            ParseModelTrainStep cases_to_reinforce weights_to_reinforce false]
    /\ length all_cases = length all_case_weights
    /\ length cases_to_reinforce = length weights_to_reinforce
    /\ zip cases_to_reinforce weights_to_reinforce =
         filter (fun case_weight : Case * float => nonzero case_weight.2 = true)
           (zip all_cases all_case_weights)
    /\ (forall (case : Case) (weight : float),
           (case, weight) ∈ zip cases_to_reinforce weights_to_reinforce ->
           PrimFloat.eqb weight 0 = false)
    /\ (forall (case : Case) (weight : float),
           (case, weight) ∈ zip all_cases all_case_weights ->
           PrimFloat.eqb weight 0 = false ->
           (case, weight) ∈ zip cases_to_reinforce weights_to_reinforce)
    /\ sublist (zip cases_to_reinforce weights_to_reinforce)
         (zip all_cases all_case_weights).
Proof.
  intros Hstep batch all_cases all_case_weights.
  unfold train_step in Hstep. fold batch in Hstep.
  apply bind_Return_inv in Hstep as (data & st1 & Hbatches & Hstep).
  apply bind_Return_inv in Hstep as ([] & st2 & [= <-] & Hstep).
  apply bind_Return_inv in Hstep as ([cases weights] & st3 & Hloop & Hstep).
  apply weigh_loop_Return_inv in Hloop as [-> Hloop].
  rewrite prune_filter in Hstep. cbn zeta in Hstep.
  set (kept := filter _ (zip cases weights)) in Hstep.
  apply bind_Return_inv in Hstep as ([] & st4 & Hvalue & Hparse).
  destruct (_value_function self) as [value_function_|]; [|done].
  destruct (_parse_model self) as [parse_model_|]; [|done].
  injection Hvalue as <-. injection Hparse as <-.
  assert (cases = all_cases /\ weights = all_case_weights
          /\ length all_cases = length all_case_weights) as (-> & -> & Hlength).
  { subst all_cases all_case_weights.
    destruct Hloop as [[Hnil [= -> ->]]|(case_weighter & Hweighter & Hmatch & [= -> ->])].
    - rewrite Hnil. by destruct (_case_weighter self).
    - rewrite Hweighter. cbn. split; [done|]. split; [done|].
      by apply batch_lengths. }
  eexists _, (kept.*1), (kept.*2). split; [|split; [done|split; [|split]]].
  - cbn. rewrite <- app_assoc. cbn.
    pose proof (train_decomposable_batches_model_updates self
                  (predictions self examples true false) examples st) as Hupdates.
    rewrite Hbatches in Hupdates. cbn in Hupdates. by rewrite Hupdates.
  - by rewrite !length_fmap.
  - apply zip_fst_snd.
  - rewrite zip_fst_snd. subst kept. split; [|split].
    + intros case weight Hin. apply list_elem_of_filter in Hin as [Hnonzero _].
      cbn in Hnonzero. unfold nonzero in Hnonzero.
      by destruct (PrimFloat.eqb weight 0).
    + intros case weight Hin Hweight. apply list_elem_of_filter. split; [|done].
      cbn. unfold nonzero. by rewrite Hweight.
    + apply sublist_filter.
Qed.

End TrainingProperties.

(** * Further properties *)

(** ** Probabilities under the min-shift *)

Section MinShiftProperties.
Context `{Collaborators}.

Lemma fold_left_Rmin_lower_bound (l : list R) (x c : R) :
  (c <= x)%R -> Forall (Rle c) l -> (c <= fold_left Rmin l x)%R.
Proof.
  intros Hx Hl. revert x Hx. induction Hl as [|y l Hy _ IH]; intros x Hx; [done|].
  cbn. apply IH. by apply Rmin_glb.
Qed.

(** In the branch for a normalization other than [local], a path whose
    score is the least of its beam gets the probability 0, whenever the
    shifted scores do not sum to zero. *)
Theorem get_probs_global_min_zero (self : Decoder) (beam : Beam) (i : nat)
    (path : ParsePath) :
  _normalization self <> NormalizationOptions.LOCAL ->
  np_sum (shifted_scores beam) <> 0%R ->
  _paths beam !! i = Some path ->
  Forall (fun other => (score path <= score other)%R) (_paths beam) ->
  exists probs : list npfloat,
    get_probs self beam = Return probs /\ probs !! i = Some (Finite 0).
Proof.
  intros Hglobal Hsum Hi Hleast.
  eexists. split; [by apply get_probs_global|].
  rewrite list_lookup_fmap.
  assert (shifted_scores beam !! i = Some 0%R) as ->.
  { unfold shifted_scores in *. destruct (_paths beam) as [|first paths] eqn:Hpaths; [done|].
    rewrite <- !list_fmap_compose, list_lookup_fmap, Hi. cbn. f_equal.
    apply Forall_cons in Hleast as [Hfirst Hrest].
    assert (fold_left Rmin (map score paths) (score first) = score path) as ->; [|lra].
    apply Rle_antisym.
    - apply list_elem_of_lookup_2 in Hi. apply elem_of_cons in Hi as [->|Hi].
      + apply fold_left_Rmin_le_init.
      + apply fold_left_Rmin_le_elem. by apply list_elem_of_fmap_2.
    - apply fold_left_Rmin_lower_bound; [done|]. by apply Forall_fmap. }
  cbn. rewrite np_true_divide_finite by done. do 2 f_equal. unfold Rdiv. lra.
Qed.

End MinShiftProperties.

(** ** The keys and the size of the predicate dictionary *)

Lemma size_list_to_set_le (l : list string) :
  size (list_to_set l : gset string) <= length l
  /\ (size (list_to_set l : gset string) = length l <-> NoDup l).
Proof.
  induction l as [|x l [IHle IHiff]]; cbn.
  - rewrite size_empty. split; [done|]. split; [constructor|done].
  - destruct (decide (x ∈ l)) as [Hin|Hnotin].
    + assert ({[x]} ∪ list_to_set l = (list_to_set l : gset string)) as ->.
      { apply subseteq_union_1_L, singleton_subseteq_l. by apply elem_of_list_to_set. }
      split; [lia|]. split; [lia|]. intros Hnodup. by apply NoDup_cons in Hnodup as [? _].
    + rewrite size_union, size_singleton.
      * split; [lia|]. rewrite NoDup_cons. split.
        -- intros Hsize. split; [done|]. apply IHiff. lia.
        -- intros [_ Hnodup]. apply IHiff in Hnodup. lia.
      * apply disjoint_singleton_l. by rewrite elem_of_list_to_set.
Qed.

Lemma build_predicate_dictionary_dom (predicates : list Predicate) :
  dom (_build_predicate_dictionary predicates)
  = (list_to_set (name <$> predicates) : gset string).
Proof.
  change (_build_predicate_dictionary predicates) with (fill_dictionary ∅ 0 predicates).
  by rewrite fill_dictionary_dom, dom_empty_L, (left_id_L ∅ (∪)).
Qed.

Lemma build_predicate_dictionary_is_Some (predicates : list Predicate) (nm : string) :
  is_Some (_build_predicate_dictionary predicates !! nm) <-> nm ∈ name <$> predicates.
Proof.
  by rewrite <- elem_of_dom, build_predicate_dictionary_dom, elem_of_list_to_set.
Qed.

Lemma build_predicate_dictionary_bound (predicates : list Predicate) (nm : string)
    (i : nat) :
  _build_predicate_dictionary predicates !! nm = Some i -> i < length predicates.
Proof.
  intros Hi. apply build_predicate_dictionary_lookup in Hi as [Hi _].
  apply lookup_lt_Some in Hi. by rewrite length_fmap in Hi.
Qed.

Lemma build_predicate_dictionary_size_le (predicates : list Predicate) :
  size (_build_predicate_dictionary predicates) <= length predicates
  /\ (size (_build_predicate_dictionary predicates) = length predicates
      <-> NoDup (name <$> predicates)).
Proof.
  rewrite <- size_dom, build_predicate_dictionary_dom.
  rewrite <- (length_fmap name predicates). apply size_list_to_set_le.
Qed.

(** The keys of the predicate dictionary are the names of the predicates,
    every index is a position of the list, and the dictionary has as many
    entries as there are predicates exactly when no name occurs twice. *)
Theorem predicate_dictionary_keys (predicates : list Predicate) :
  let names := name <$> predicates in
  let pred_dict := _build_predicate_dictionary predicates in
  (forall nm : string, is_Some (pred_dict !! nm) <-> nm ∈ names)
  /\ (forall (nm : string) (i : nat), pred_dict !! nm = Some i -> i < length predicates)
  /\ size pred_dict <= length predicates
  /\ (size pred_dict = length predicates <-> NoDup names).
Proof.
  intros names pred_dict. split; [|split].
  - apply build_predicate_dictionary_is_Some.
  - apply build_predicate_dictionary_bound.
  - apply build_predicate_dictionary_size_le.
Qed.

(** ** Errors of the one-hot encoding *)

Lemma result_map_Raise {A B : Type} (f : A -> result B) (known rest : list A)
    (x : A) (e : exn) :
  Forall (fun y => exists b, f y = Return b) known ->
  f x = Raise e ->
  result_map f (known ++ x :: rest) = Raise e.
Proof.
  intros Hknown Hx. induction Hknown as [|y known [b Hy] _ IH]; cbn.
  - by rewrite Hx.
  - by rewrite Hy, IH.
Qed.

(** With pairwise distinct names, encoding a list of decisions raises
    KeyError for the first decision that is not the name of a
    predicate. *)
Theorem decisions_to_one_hot_unknown (predicates : list Predicate)
    (known rest : list string) (decision : string) :
  NoDup (name <$> predicates) ->
  Forall (fun d => d ∈ name <$> predicates) known ->
  decision ∉ name <$> predicates ->
  decisions_to_one_hot (_build_predicate_dictionary predicates)
    (known ++ decision :: rest)
  = Raise (KeyError decision).
Proof.
  intros Hnodup Hknown Hunknown.
  pose proof (build_predicate_dictionary_is_Some predicates) as Hkeys.
  pose proof (build_predicate_dictionary_bound predicates) as Hindex.
  destruct (build_predicate_dictionary_size_le predicates) as [_ Hsize].
  apply Hsize in Hnodup.
  unfold decisions_to_one_hot. apply result_map_Raise.
  - eapply Forall_impl; [exact Hknown|]. intros d Hd. cbn in Hd.
    apply Hkeys in Hd as [j Hj]. unfold one_hot_decision. rewrite Hj.
    apply Hindex in Hj. rewrite decide_True by lia. by eexists.
  - unfold one_hot_decision.
    destruct (_build_predicate_dictionary predicates !! decision) as [j|] eqn:Hj; [|done].
    destruct Hunknown. apply Hkeys. by eexists.
Qed.

(** As soon as a name occurs twice, the name of the last predicate cannot
    be encoded: its index is the last position of the list, and the
    dictionary is shorter than the list. *)
Theorem decisions_to_one_hot_duplicate (predicates : list Predicate) (p : Predicate)
    (rest : list string) :
  ~ NoDup (name <$> predicates) ->
  last predicates = Some p ->
  decisions_to_one_hot (_build_predicate_dictionary predicates) (name p :: rest)
  = Raise IndexError.
Proof.
  intros Hdup Hlast.
  destruct (build_predicate_dictionary_size_le predicates) as [Hle Hsize].
  assert (size (_build_predicate_dictionary predicates) < length predicates) as Hshort.
  { destruct (decide (size (_build_predicate_dictionary predicates) = length predicates))
      as [Heq|Hne]; [|lia].
    by apply Hsize in Heq. }
  assert (_build_predicate_dictionary predicates !! name p = Some (pred (length predicates)))
    as Hindex.
  { apply build_predicate_dictionary_lookup. rewrite last_lookup in Hlast. split.
    - by rewrite list_lookup_fmap, Hlast.
    - intros j Hlt Hj. apply lookup_lt_Some in Hj. rewrite length_fmap in Hj. lia. }
  unfold decisions_to_one_hot. cbn. unfold one_hot_decision at 1. rewrite Hindex.
  by rewrite decide_False by lia.
Qed.

(** ** Score breakdown with any parse model *)

Section ScoreBreakdownAnyModel.
Context `{Collaborators}.

Lemma split_by_length {A : Type} (scores : list A) (paths : list ParsePath) :
  length (split_by scores paths) = length paths.
Proof.
  revert scores. induction paths as [|path paths IH]; intros scores; [done|].
  cbn. by rewrite IH.
Qed.

Lemma split_by_prefix {A : Type} (scores : list A) (paths : list ParsePath) :
  concat (split_by scores paths)
  = take (length (flatten (_cases <$> paths))) scores.
Proof.
  revert scores. induction paths as [|path paths IH]; intros scores.
  - cbn. by rewrite take_0.
  - cbn. unfold flatten in *. rewrite IH, length_app.
    by rewrite take_take_drop.
Qed.

Lemma split_by_bounded {A : Type} (scores : list A) (paths : list ParsePath) :
  Forall2 (fun group path => length group <= length (_cases path))
    (split_by scores paths) paths.
Proof.
  revert scores. induction paths as [|path paths IH]; intros scores; cbn.
  - constructor.
  - constructor; [|apply IH]. rewrite length_take. lia.
Qed.

(** Whatever the parse model returns, [score_breakdown] yields one group
    per path, no group longer than its path has cases, and the groups put
    end to end are the first entries of what the parse model returned, as
    many as there are cases, in their order. *)
Theorem score_breakdown_prefix (self : Decoder) (parse_model : TrainParseModel)
    (paths : list ParsePath) :
  _parse_model self = Some parse_model ->
  let cases := flatten (_cases <$> paths) in
  let scores := parse_model_score_breakdown parse_model cases false false in
  exists (grouped_attentions : list (list Attention))
         (grouped_subscores : list (list Subscores)),
    score_breakdown self paths = Return (grouped_attentions, grouped_subscores)
    /\ length grouped_attentions = length paths
    /\ length grouped_subscores = length paths
    /\ concat grouped_attentions = take (length cases) scores.1
    /\ concat grouped_subscores = take (length cases) scores.2
    /\ Forall2 (fun group path => length group <= length (_cases path))
         grouped_attentions paths
    /\ Forall2 (fun group path => length group <= length (_cases path))
         grouped_subscores paths.
Proof.
  intros Hmodel cases scores.
  exists (split_by scores.1 paths), (split_by scores.2 paths).
  split; [by apply score_breakdown_split|].
  rewrite !split_by_length, !split_by_prefix.
  repeat split; apply split_by_bounded.
Qed.

(** A decoder without a parse model raises AttributeError on every list of
    paths but the empty one. *)
Theorem score_breakdown_no_model (self : Decoder) (paths : list ParsePath) :
  _parse_model self = None ->
  paths <> [] ->
  score_breakdown self paths = Raise AttributeError.
Proof.
  intros Hmodel Hpaths. unfold score_breakdown.
  destruct (decide (length paths = 0)) as [Hempty|_].
  - by destruct paths.
  - rewrite flatten_paths_spec. by rewrite Hmodel.
Qed.

End ScoreBreakdownAnyModel.

(** ** The batches for the decomposable model, in full *)

Section BatchProperties.
Context `{Collaborators}.

Lemma add_predictions_zero (st : DecoderState) : add_predictions 0 0 st = st.
Proof.
  destruct st. unfold add_predictions. cbn. f_equal; lia.
Qed.

Lemma add_predictions_add (c1 a1 c2 a2 : Z) (st : DecoderState) :
  add_predictions c2 a2 (add_predictions c1 a1 st)
  = add_predictions (c1 + c2) (a1 + a2) st.
Proof.
  unfold add_predictions. cbn. f_equal; lia.
Qed.

(** The loops over the tokens: with an embedding for every token, they
    yield one embedding per token and the sentence. *)
Lemma embed_tokens_Return (self : Decoder) (tokens : list string)
    (utter_embds : list Embedding) (sentence : string) :
  Forall (fun token => is_Some (_glove_embeddings self !! token)) tokens ->
  exists embds : list Embedding,
    result_for tokens
      (fun token '(utter_embds, sentence_for_print) =>
         result_bind (glove_embedding self token) (fun e =>
         Return (utter_embds ++ [e], sentence_for_print +:+ token +:+ " ")))
      (utter_embds, sentence)
    = Return (utter_embds ++ embds,
              fold_left (fun s token => s +:+ token +:+ " ") tokens sentence)
    /\ length embds = length tokens.
Proof.
  intros Hknown. revert utter_embds sentence.
  induction Hknown as [|token tokens [e He] _ IH]; intros utter_embds sentence.
  - exists []. by rewrite app_nil_r.
  - destruct (IH (utter_embds ++ [e]) (sentence +:+ token +:+ " ")) as (embds & Hloop & Hlen).
    exists (e :: embds). split; [|by cbn; rewrite Hlen].
    cbn [result_for]. unfold glove_embedding at 1. rewrite He. cbn [result_bind].
    rewrite Hloop. by rewrite <- app_assoc.
Qed.

Lemma embed_utterances_from (self : Decoder) (utterances : list Utterance)
    (utter_embds : list Embedding) (sentence : string) :
  Forall (fun token => is_Some (_glove_embeddings self !! token))
    (concat (_tokens <$> utterances)) ->
  exists embds : list Embedding,
    result_for utterances
      (fun utter acc =>
         result_for (_tokens utter)
           (fun token '(utter_embds, sentence_for_print) =>
              result_bind (glove_embedding self token) (fun e =>
              Return (utter_embds ++ [e], sentence_for_print +:+ token +:+ " ")))
           acc)
      (utter_embds, sentence)
    = Return (utter_embds ++ embds,
              fold_left (fun s token => s +:+ token +:+ " ")
                (concat (_tokens <$> utterances)) sentence)
    /\ length embds = length (concat (_tokens <$> utterances)).
Proof.
  revert utter_embds sentence.
  induction utterances as [|utter utterances IH]; intros utter_embds sentence Hknown.
  - exists []. by rewrite app_nil_r.
  - cbn in Hknown. apply Forall_app in Hknown as [Hfirst Hrest].
    destruct (embed_tokens_Return self (_tokens utter) utter_embds sentence Hfirst)
      as (embds1 & Hloop1 & Hlen1).
    destruct (IH (utter_embds ++ embds1)
                (fold_left (fun s token => s +:+ token +:+ " ") (_tokens utter) sentence)
                Hrest)
      as (embds2 & Hloop2 & Hlen2).
    exists (embds1 ++ embds2). split.
    + cbn [result_for]. rewrite Hloop1. cbn [result_bind]. rewrite Hloop2.
      cbn. by rewrite fold_left_app, <- app_assoc.
    + cbn. rewrite !length_app. lia.
Qed.

Lemma embed_utterances_Return (self : Decoder) (path : ParsePath) :
  Forall (fun token => is_Some (_glove_embeddings self !! token)) (utterance_tokens path) ->
  exists embds : list Embedding,
    embed_utterances self (utterances (path_context path))
    = Return (embds, sentence_for_print (utterance_tokens path))
    /\ length embds = length (utterance_tokens path).
Proof.
  intros Hknown.
  destruct (embed_utterances_from self (utterances (path_context path)) [] "" Hknown)
    as (embds & Hloop & Hlen).
  by exists embds.
Qed.

(** The loops stop at the first token without an embedding. *)
Lemma embed_tokens_Raise (self : Decoder) (known more : list string) (token : string)
    (acc : list Embedding * string) :
  Forall (fun token => is_Some (_glove_embeddings self !! token)) known ->
  _glove_embeddings self !! token = None ->
  result_for (known ++ token :: more)
    (fun token '(utter_embds, sentence_for_print) =>
       result_bind (glove_embedding self token) (fun e =>
       Return (utter_embds ++ [e], sentence_for_print +:+ token +:+ " ")))
    acc
  = Raise (KeyError token).
Proof.
  intros Hknown Hmissing. revert acc.
  induction Hknown as [|t known [e He] _ IH]; intros [utter_embds sentence].
  - cbn. unfold glove_embedding. by rewrite Hmissing.
  - cbn [app result_for]. unfold glove_embedding at 1. rewrite He. cbn [result_bind].
    apply IH.
Qed.

Lemma embed_utterances_Raise_from (self : Decoder) (utterances : list Utterance)
    (known more : list string) (token : string) (acc : list Embedding * string) :
  concat (_tokens <$> utterances) = known ++ token :: more ->
  Forall (fun token => is_Some (_glove_embeddings self !! token)) known ->
  _glove_embeddings self !! token = None ->
  result_for utterances
    (fun utter acc =>
       result_for (_tokens utter)
         (fun token '(utter_embds, sentence_for_print) =>
            result_bind (glove_embedding self token) (fun e =>
            Return (utter_embds ++ [e], sentence_for_print +:+ token +:+ " ")))
         acc)
    acc
  = Raise (KeyError token).
Proof.
  revert known acc.
  induction utterances as [|utter utterances IH]; intros known acc Htokens Hknown Hmissing.
  - by destruct known.
  - cbn in Htokens. cbn [result_for].
    destruct (decide (length (_tokens utter) <= length known)) as [Hshort|Hlong].
    + (* the tokens of this utterance are all known *)
      assert (_tokens utter = take (length (_tokens utter)) known
              /\ concat (_tokens <$> utterances)
                 = drop (length (_tokens utter)) known ++ token :: more) as [Hhead Htail].
      { apply (f_equal (take (length (_tokens utter)))) in Htokens as Htake.
        apply (f_equal (drop (length (_tokens utter)))) in Htokens as Hdrop.
        rewrite take_app_length in Htake. rewrite drop_app_length in Hdrop.
        rewrite take_app_le in Htake by done. rewrite drop_app_le in Hdrop by done.
        done. }
      destruct acc as [utter_embds sentence].
      destruct (embed_tokens_Return self (_tokens utter) utter_embds sentence)
        as (embds & -> & _).
      { rewrite Hhead. by apply Forall_take. }
      cbn [result_bind]. apply (IH _ _ Htail); [by apply Forall_drop|done].
    + (* the token is in this utterance *)
      assert (_tokens utter
              = known ++ token :: take (length (_tokens utter) - S (length known)) more)
        as ->.
      { apply (f_equal (take (length (_tokens utter)))) in Htokens.
        rewrite take_app_length in Htokens.
        remember (length (_tokens utter)) as n eqn:Hn. rewrite Htokens.
        rewrite take_app_ge by lia.
        by replace (n - length known) with (S (n - S (length known))) by lia. }
      by rewrite embed_tokens_Raise.
Qed.

Lemma embed_utterances_Raise (self : Decoder) (path : ParsePath)
    (known more : list string) (token : string) :
  utterance_tokens path = known ++ token :: more ->
  Forall (fun token => is_Some (_glove_embeddings self !! token)) known ->
  _glove_embeddings self !! token = None ->
  embed_utterances self (utterances (path_context path)) = Raise (KeyError token).
Proof. apply embed_utterances_Raise_from. Qed.

Lemma fold_left_fmap {A B C : Type} (f : A -> C -> A) (g : B -> C) (l : list B) (a : A) :
  fold_left f (g <$> l) a = fold_left (fun a x => f a (g x)) l a.
Proof. revert a. induction l as [|x l IH]; intros a; cbn; [done|]. apply IH. Qed.

Lemma for_loop_app {A L : Type} (l1 l2 : list A) (body : A -> L -> M L) (locals : L)
    (st : DecoderState) :
  for_loop (l1 ++ l2) body locals st
  = bind (for_loop l1 body locals) (for_loop l2 body) st.
Proof.
  revert locals st. induction l1 as [|x l1 IH]; intros locals st; [reflexivity|].
  cbn [app for_loop]. unfold bind.
  destruct (body x locals st) as [[locals1|e] st1]; [|done]. by rewrite IH.
Qed.

(** The loop over the paths of a beam adds one row per path and counts
    every path, and the correct ones. *)
Lemma path_loop (example : Example) (utter_embds : list Embedding)
    (sentence world_state : string) (paths : list ParsePath) (k : nat)
    (locals : Locals.t) (st : DecoderState) :
  aligned locals ->
  exists locals' : Locals.t,
    for_loop (enumerate_from k paths)
      (path_body example utter_embds sentence world_state) locals st
    = (Return locals',
       add_predictions
         (Z.of_nat (length (List.filter (is_correct example) paths)))
         (Z.of_nat (length paths)) st)
    /\ aligned locals'
    /\ rows_in locals'
       = rows_in locals
           ++ ((fun path =>
                  (sentence, full_decision_for_print (name <$> decisions path),
                   if is_correct example path then 1%Z else 0%Z)) <$> paths)
    /\ (is_Some (Locals.beam_batch_correct locals) ->
        is_Some (Locals.beam_batch_correct locals')).
Proof.
  revert k locals st. induction paths as [|path paths IH]; intros k locals st Haligned.
  - exists locals. cbn. by rewrite add_predictions_zero, app_nil_r.
  - cbn [enumerate_from for_loop]. unfold bind at 1. cbn -[for_loop Z.of_nat].
    match goal with
    | |- context [for_loop _ _ ?l ?s] =>
        destruct (IH (S k) l s) as (locals' & Hloop & Haligned' & Hrows & Hbound)
    end.
    { destruct Haligned as [H1 H2]. unfold aligned. cbn.
      rewrite !length_app. cbn. lia. }
    exists locals'. rewrite Hloop. split; [|split; [done|split]].
    + f_equal.
      change (count_prediction (check_denotation (answer example) (finalized_denotation path)) st)
        with (add_predictions (if is_correct example path then 1 else 0) 1 st).
      rewrite add_predictions_add. unfold is_correct.
      destruct (check_denotation _ _); cbn [length]; f_equal; lia.
    + rewrite Hrows. unfold rows_in. cbn -[zip].
      destruct Haligned as [H1 H2].
      rewrite fmap_app, !zip_with_app by (rewrite ?length_zip_with, ?length_fmap; lia).
      rewrite <- app_assoc. cbn. do 3 f_equal.
      * unfold full_decision_for_print. by rewrite fold_left_fmap.
      * unfold is_correct. by destruct (check_denotation _ _).
    + intros Hsome. apply Hbound. cbn.
      destruct (check_denotation _ _); [|done].
      destruct Hsome as [x ->]. by eexists.
Qed.

Lemma pad_utterance_Return (utter_len : Z) (utter_embds : list Embedding) :
  0 < length utter_embds ->
  (Z.of_nat (length utter_embds) <= utter_len)%Z ->
  exists padded : list Embedding, pad_utterance utter_len utter_embds = Return padded.
Proof.
  intros Hpos Hle. unfold pad_utterance.
  rewrite decide_False by lia. rewrite decide_False by lia. by eexists.
Qed.


Lemma count_all_cons (example : Example) (beam : Beam) (batch : list (Example * Beam)) :
  count_all ((example, beam) :: batch)
  = (Z.of_nat (length (_paths beam)) + count_all batch)%Z.
Proof. unfold count_all. cbn. rewrite length_app. lia. Qed.

Lemma count_correct_cons (example : Example) (beam : Beam) (batch : list (Example * Beam)) :
  count_correct ((example, beam) :: batch)
  = (Z.of_nat (length (List.filter (is_correct example) (_paths beam)))
     + count_correct batch)%Z.
Proof. unfold count_correct. cbn. rewrite length_app. lia. Qed.

(** One iteration of the loop over the batch. *)
Lemma example_body_Return (self : Decoder) (example : Example) (beam : Beam)
    (locals : Locals.t) (st : DecoderState) :
  embeddable self (example, beam) ->
  aligned locals ->
  exists locals' : Locals.t,
    example_body self (example, beam) locals st
    = (Return locals',
       add_predictions
         (Z.of_nat (length (List.filter (is_correct example) (_paths beam))))
         (Z.of_nat (length (_paths beam))) st)
    /\ aligned locals'
    /\ rows_in locals' = rows_in locals ++ rows_of (example, beam)
    /\ (is_Some (Locals.beam_batch_correct locals) \/ _paths beam <> [] ->
        is_Some (Locals.beam_batch_correct locals')).
Proof.
  intros Hhead Haligned.
  unfold embeddable in Hhead. unfold rows_of, example_body. cbn [fst snd] in *.
  destruct (_paths beam) as [|first_path others] eqn:Hpaths.
  - exists locals. cbn. rewrite add_predictions_zero, app_nil_r.
    split; [done|]. split; [done|]. split; [done|]. by intros [Hsome|Hne].
  - destruct Hhead as (Hknown & Hpos & Hlen).
    destruct (embed_utterances_Return self first_path Hknown) as (embds & Hembed & Hembds).
    destruct (pad_utterance_Return (_utter_len self) embds) as [padded Hpad]; [lia..|].
    cbv beta iota.
    erewrite bind_Return by (unfold lift; rewrite Hembed; reflexivity).
    cbv beta iota.
    erewrite bind_Return by (unfold lift; rewrite Hpad; reflexivity).
    match goal with
    | |- context [for_loop (enumerate _) (path_body _ _ _ ?ws) ?l st] =>
        destruct (path_loop example padded
                    (sentence_for_print (utterance_tokens first_path)) ws
                    (first_path :: others) 0 l st)
          as (locals1 & Hloop1 & Haligned1 & Hrows1 & Hbound1)
    end; [done|].
    exists locals1. split; [exact Hloop1|]. split; [done|]. split; [exact Hrows1|].
    intros _. apply Hbound1. by eexists.
Qed.

(** The loop over the batch, when every beam with paths is embeddable. *)
Lemma example_loop (self : Decoder) (batch : list (Example * Beam))
    (locals : Locals.t) (st : DecoderState) :
  Forall (embeddable self) batch ->
  aligned locals ->
  exists locals' : Locals.t,
    for_loop batch (example_body self) locals st
    = (Return locals', add_predictions (count_correct batch) (count_all batch) st)
    /\ aligned locals'
    /\ rows_in locals' = rows_in locals ++ concat (rows_of <$> batch)
    /\ (is_Some (Locals.beam_batch_correct locals)
        \/ Exists (fun example_beam => _paths example_beam.2 <> []) batch ->
        is_Some (Locals.beam_batch_correct locals')).
Proof.
  intros Hbatch. revert locals st.
  induction Hbatch as [|[example beam] batch Hhead _ IH]; intros locals st Haligned.
  - exists locals. cbn. rewrite add_predictions_zero, app_nil_r.
    split; [done|]. split; [done|]. split; [done|].
    intros [Hsome|Hex]; [done|]. by apply Exists_nil in Hex.
  - destruct (example_body_Return self example beam locals st Hhead Haligned)
      as (locals1 & Hbody & Haligned1 & Hrows1 & Hbound1).
    destruct (IH locals1
                (add_predictions
                   (Z.of_nat (length (List.filter (is_correct example) (_paths beam))))
                   (Z.of_nat (length (_paths beam))) st) Haligned1)
      as (locals' & Hloop & Haligned' & Hrows & Hbound).
    exists locals'. split; [|split; [done|split]].
    + cbn [for_loop]. erewrite bind_Return by exact Hbody.
      rewrite Hloop, add_predictions_add.
      by rewrite count_all_cons, count_correct_cons.
    + rewrite Hrows, Hrows1. cbn. by rewrite <- app_assoc.
    + intros [Hsome|Hex]; apply Hbound.
      * left. apply Hbound1. by left.
      * apply Exists_cons in Hex as [Hex|Hex]; [|by right].
        left. apply Hbound1. by right.
Qed.

(** [train_decomposable_batches] past its first statements, for a step
    counter that is not negative. *)
Lemma train_decomposable_batches_loop (self : Decoder) (beams : list Beam)
    (examples : list Example) (st : DecoderState) :
  counter_invariant st ->
  train_decomposable_batches self beams examples st
  = match
      for_loop (zip examples beams) (example_body self) Locals.initial
        (set_train_step_count (_train_step_count st + 1) st)
    with
    | (Raise e, st') => (Raise e, st')
    | (Return locals, st') =>
        match Locals.beam_batch_correct locals with
        | None => (Raise (UnboundLocalError "beam_batch_correct"), st')
        | Some _ => (Return (Some (rows_in locals)), st')
        end
    end.
Proof.
  intros Hcounter.
  unfold train_decomposable_batches, bind, modify, gets. cbn -[for_loop].
  unfold counter_invariant in Hcounter. rewrite decide_False by lia.
  destruct (for_loop _ _ _ _) as [[locals|e] st']; [|done].
  by destruct (Locals.beam_batch_correct locals).
Qed.

(** A beam that stops the loop: the loop over the beams before it has
    counted their paths. *)
Lemma example_loop_Raise (self : Decoder) (before rest : list (Example * Beam))
    (example : Example) (beam : Beam) (e : exn) :
  Forall (embeddable self) before ->
  (forall locals st, example_body self (example, beam) locals st = (Raise e, st)) ->
  forall st : DecoderState,
    for_loop (before ++ (example, beam) :: rest) (example_body self) Locals.initial st
    = (Raise e, add_predictions (count_correct before) (count_all before) st).
Proof.
  intros Hbefore Hbody st.
  destruct (example_loop self before Locals.initial st Hbefore) as (locals' & Hloop & _);
    [done|].
  rewrite for_loop_app. erewrite bind_Return by exact Hloop.
  cbn [for_loop]. apply bind_Raise, Hbody.
Qed.

(** When every beam with paths is embeddable and some beam has a path,
    [train_decomposable_batches] returns one row per path of the batch, in
    order: the utterance of the first path of the beam, the names of the
    decisions of the path, and 1 or 0 for a right or wrong denotation. It
    leaves the step counter one higher, and the prediction counters
    raised by the number of paths and of right denotations. *)
Theorem train_decomposable_batches_returns (self : Decoder) (beams : list Beam)
    (examples : list Example) (st : DecoderState) :
  counter_invariant st ->
  Forall (embeddable self) (zip examples beams) ->
  Exists (fun example_beam => _paths example_beam.2 <> []) (zip examples beams) ->
  train_decomposable_batches self beams examples st
  = (Return (Some (concat (rows_of <$> zip examples beams))),
     add_predictions (count_correct (zip examples beams)) (count_all (zip examples beams))
       (set_train_step_count (_train_step_count st + 1) st)).
Proof.
  intros Hcounter Hbatch Hsome.
  rewrite train_decomposable_batches_loop by done.
  destruct (example_loop self (zip examples beams) Locals.initial
              (set_train_step_count (_train_step_count st + 1) st) Hbatch)
    as (locals' & -> & _ & Hrows & Hbound); [done|].
  destruct Hbound as [correct Hcorrect]; [by right|].
  rewrite Hcorrect. do 3 f_equal. exact Hrows.
Qed.

(** A run that reaches a beam in which a token of the utterance of the
    first path has no embedding raises KeyError for the first such token.
    The step counter is one higher by then, and the paths of the beams
    before stay counted. *)
Theorem train_decomposable_batches_missing_embedding (self : Decoder)
    (beams : list Beam) (examples : list Example) (st : DecoderState)
    (before rest : list (Example * Beam)) (example : Example) (beam : Beam)
    (first_path : ParsePath) (others : list ParsePath)
    (known more : list string) (token : string) :
  counter_invariant st ->
  zip examples beams = before ++ (example, beam) :: rest ->
  Forall (embeddable self) before ->
  _paths beam = first_path :: others ->
  utterance_tokens first_path = known ++ token :: more ->
  Forall (fun token => is_Some (_glove_embeddings self !! token)) known ->
  _glove_embeddings self !! token = None ->
  train_decomposable_batches self beams examples st
  = (Raise (KeyError token),
     add_predictions (count_correct before) (count_all before)
       (set_train_step_count (_train_step_count st + 1) st)).
Proof.
  intros Hcounter Hzip Hbefore Hpaths Htokens Hknown Hmissing.
  rewrite train_decomposable_batches_loop, Hzip by done.
  rewrite (example_loop_Raise self before rest example beam (KeyError token)); [done..|].
  intros locals s. unfold example_body. rewrite Hpaths. apply bind_Raise.
  unfold lift. by rewrite (embed_utterances_Raise self first_path known more token).
Qed.


(** However it ends, [train_decomposable_batches] raises the step counter
    by one, calls no trainable model, leaves [_decomposable_data] alone,
    and counts no more right denotations than paths. *)
Theorem train_decomposable_batches_frame (self : Decoder) (beams : list Beam)
    (examples : list Example) (st : DecoderState) :
  let st' := (train_decomposable_batches self beams examples st).2 in
  _train_step_count st' = (_train_step_count st + 1)%Z
  /\ model_updates st' = model_updates st
  /\ _decomposable_data st' = _decomposable_data st
  /\ (0 <= correct_predictions st' - correct_predictions st
      <= all_predictions st' - all_predictions st)%Z.
Proof.
  apply (train_decomposable_batches_preserves
           (fun s =>
              _train_step_count s = (_train_step_count st + 1)%Z
              /\ model_updates s = model_updates st
              /\ _decomposable_data s = _decomposable_data st
              /\ (0 <= correct_predictions s - correct_predictions st
                  <= all_predictions s - all_predictions st)%Z)).
  - intros b s (? & ? & ? & ?). cbn. repeat split; try done; destruct b; lia.
  - cbn. repeat split; lia.
Qed.

End BatchProperties.

(** ** The training step, further *)

Section TrainStepProperties.
Context `{Collaborators}.

(** When the exploration finishes no path for any example (on the empty
    batch too), [train_step] raises UnboundLocalError: by then the step
    counter is one higher and nothing else has changed. *)
Theorem train_step_no_finished_path (self : Decoder) (examples : list Example)
    (st : DecoderState) :
  counter_invariant st ->
  Forall (fun beam => Forall (fun path => terminated path = false) (_paths beam))
    (get_beams (_train_exploration_policy self) examples false) ->
  train_step self examples st
  = (Raise (UnboundLocalError "beam_batch_correct"),
     set_train_step_count (_train_step_count st + 1) st).
Proof.
  intros Hcounter Hopen. unfold train_step. apply bind_Raise.
  rewrite train_decomposable_batches_loop by done.
  rewrite for_loop_empty_beams; [done|].
  unfold predictions, exploration_policy.
  apply Forall_forall. intros [example beam] Hin.
  apply elem_of_zip_r, list_elem_of_fmap in Hin as (beam' & -> & Hbeam'). cbn.
  pose proof (proj1 (Forall_forall _ _) Hopen beam' Hbeam') as Hpaths.
  induction Hpaths as [|path paths Hpath _ IH]; [done|].
  cbn. by rewrite Hpath.
Qed.

Lemma vf_examples_concat (batch : list (Example * Beam))
    (acc : list ValueFunctionExample) :
  fold_left
    (fun vf_examples '(example, paths) => vf_examples ++ examples_from_paths paths example)
    batch acc
  = acc ++ concat ((fun '(example, paths) => examples_from_paths paths example) <$> batch).
Proof.
  revert acc. induction batch as [|[example paths] batch IH]; intros acc; cbn.
  - by rewrite app_nil_r.
  - by rewrite IH, <- app_assoc.
Qed.

(** When [train_step] returns, [train_decomposable_batches] has returned,
    its result is in [_decomposable_data], and after it only the two
    trainable models were called: first the value function, on the
    examples made from every pair of beam and example, in order. *)
Theorem train_step_returns (self : Decoder) (examples : list Example)
    (st st' : DecoderState) :
  train_step self examples st = (Return tt, st') ->
  let beams := predictions self examples true false in
  exists (data : option (list (string * string * Z))) (st1 : DecoderState)
         (cases : list Case) (weights : list float),
    train_decomposable_batches self beams examples st = (Return data, st1)
    /\ _decomposable_data st' = data
    /\ _train_step_count st' = (_train_step_count st + 1)%Z
    /\ correct_predictions st' = correct_predictions st1
    /\ all_predictions st' = all_predictions st1
    /\ model_updates st'
       = model_updates st
           ++ [ValueFunctionTrainStep
                 (concat ((fun '(example, paths) => examples_from_paths paths example)
                            <$> zip examples beams));
               ParseModelTrainStep cases weights false].
Proof.
  intros Hstep beams. unfold train_step in Hstep. fold beams in Hstep.
  apply bind_Return_inv in Hstep as (data & st1 & Hbatches & Hstep).
  apply bind_Return_inv in Hstep as ([] & st2 & [= <-] & Hstep).
  apply bind_Return_inv in Hstep as ([cases weights] & st3 & Hloop & Hstep).
  apply weigh_loop_Return_inv in Hloop as [-> _].
  destruct (prune cases weights) as [cases_to_reinforce weights_to_reinforce].
  rewrite vf_examples_concat in Hstep. cbn [app] in Hstep.
  apply bind_Return_inv in Hstep as ([] & st4 & Hvalue & Hparse).
  destruct (_value_function self); [|done].
  destruct (_parse_model self); [|done].
  injection Hvalue as <-. injection Hparse as <-.
  pose proof (train_decomposable_batches_preserves
                (fun s =>
                   _train_step_count s = (_train_step_count st + 1)%Z
                   /\ model_updates s = model_updates st)
                self beams examples st) as Hframe.
  rewrite Hbatches in Hframe. cbn in Hframe.
  destruct Hframe as (Hcount & Hupdates); [by intros b s []|done|].
  exists data, st1, cases_to_reinforce, weights_to_reinforce.
  split; [done|]. cbn. rewrite Hupdates, <- app_assoc. by repeat split.
Qed.

(** [train_step] completes when the decoder has its three trainable parts,
    some example has a finished path, the utterances of the beams can be
    embedded, and the case weighter gives one weight per case. It then
    leaves the rows of the batch in [_decomposable_data], counts the
    paths, and calls the value function and then the parse model, the
    latter on the cases with a non-zero weight. *)
Theorem train_step_completes (self : Decoder) (examples : list Example)
    (st : DecoderState) (case_weighter : CaseWeighter) (value_function : ValueFunction)
    (parse_model : TrainParseModel) :
  counter_invariant st ->
  _case_weighter self = Some case_weighter ->
  _value_function self = Some value_function ->
  _parse_model self = Some parse_model ->
  let batch := zip examples (predictions self examples true false) in
  let kept :=
    filter (fun case_weight : Case * float => nonzero case_weight.2 = true)
      (zip (batch_cases batch) (batch_weights case_weighter batch)) in
  Forall (embeddable self) batch ->
  Exists (fun example_beam => _paths example_beam.2 <> []) batch ->
  Forall (weights_match case_weighter) batch ->
  train_step self examples st
  = (Return tt,
     update_model (ParseModelTrainStep kept.*1 kept.*2 false)
       (update_model
          (ValueFunctionTrainStep
             (concat ((fun '(example, paths) => examples_from_paths paths example)
                        <$> batch)))
          (set_decomposable_data (Some (concat (rows_of <$> batch)))
             (add_predictions (count_correct batch) (count_all batch)
                (set_train_step_count (_train_step_count st + 1) st))))).
Proof.
  intros Hcounter Hweighter Hvalue Hmodel batch kept Hbatch Hsome Hmatch.
  unfold train_step. fold batch.
  erewrite bind_Return.
  2: { rewrite train_decomposable_batches_loop by done. fold batch.
       destruct (example_loop self batch Locals.initial
                   (set_train_step_count (_train_step_count st + 1) st) Hbatch)
         as (locals' & -> & _ & Hrows & Hbound); [done|].
       destruct Hbound as [correct Hcorrect]; [by right|].
       rewrite Hcorrect, Hrows. reflexivity. }
  erewrite bind_Return by reflexivity.
  erewrite bind_Return by (by apply (weigh_loop_Return self case_weighter)).
  cbn [app]. rewrite prune_filter. fold kept.
  rewrite vf_examples_concat. cbn [app].
  rewrite Hvalue, Hmodel.
  erewrite bind_Return by reflexivity. reflexivity.
Qed.

(** A decoder without case weighter and value function never completes a
    training step, and never calls a trainable model. *)
Lemma train_step_without_weighter (self : Decoder) (examples : list Example)
    (st : DecoderState) :
  _case_weighter self = None ->
  _value_function self = None ->
  exists (e : exn) (st' : DecoderState),
    train_step self examples st = (Raise e, st')
    /\ model_updates st' = model_updates st.
Proof.
  intros Hweighter Hvalue.
  pose proof (train_decomposable_batches_model_updates self
                (predictions self examples true false) examples st) as Hupdates.
  unfold train_step.
  destruct (train_decomposable_batches self _ examples st) as [[data|e] st1] eqn:Hbatches.
  - erewrite bind_Return by exact Hbatches.
    erewrite bind_Return by reflexivity.
    destruct (zip examples (predictions self examples true false))
      as [|[example paths] batch].
    + eexists _, _. split.
      * erewrite bind_Return by reflexivity. cbn. apply bind_Raise.
        rewrite Hvalue. reflexivity.
      * exact Hupdates.
    + eexists _, _. split.
      * apply bind_Raise. cbn [for_loop]. apply bind_Raise.
        unfold weigh_example. rewrite Hweighter. reflexivity.
      * exact Hupdates.
  - exists e, st1. split; [by apply bind_Raise|exact Hupdates].
Qed.

End TrainStepProperties.

Section ConstructionFurther.
Context `{Factories}.

(** A decoder constructed without a parse model has no value function and
    no case weighter, and so cannot train: every call of [train_step]
    raises, without a call to a trainable model. *)
Theorem init_without_parse_model (config : Config) (domain : Domain)
    (glove_embeddings : gmap string Embedding) (predicates : list Predicate)
    (utter_len max_stack_size : Z) (tb_logger : TBLogger)
    (predicate_embedder_type : string)
    (self : Decoder) (st0 : DecoderState) (calls : list FactoryCall) :
  __init__ None config domain glove_embeddings predicates utter_len max_stack_size
    tb_logger predicate_embedder_type = (Return (self, st0), calls) ->
  calls = [BuildModel; GetExplorationPolicy false; GetExplorationPolicy true]
  /\ forall (examples : list Example) (st : DecoderState),
      exists (e : exn) (st' : DecoderState),
        train_step self examples st = (Raise e, st')
        /\ model_updates st' = model_updates st.
Proof.
  unfold __init__. destruct (decide _) as [|Hne]; [done|].
  intros [= <- _ <-]. split; [done|].
  intros examples st. by apply train_step_without_weighter.
Qed.

End ConstructionFurther.

(** ** Splitting the strings of a row *)

Lemma append_nil_l (s : string) : "" +:+ s = s.
Proof. reflexivity. Qed.

Lemma append_cons (c : Ascii.ascii) (s1 s2 : string) :
  String c s1 +:+ s2 = String c (s1 +:+ s2).
Proof. reflexivity. Qed.

Lemma append_String_assoc (word : string) (c : Ascii.ascii) (s : string) :
  (word +:+ String c "") +:+ s = word +:+ String c s.
Proof.
  induction word as [|d word IH]; [done|]. rewrite !append_cons. by f_equal.
Qed.

Lemma append_empty_r (s : string) : s +:+ "" = s.
Proof. induction s as [|c s IH]; [done|]. rewrite append_cons. by f_equal. Qed.

Lemma append_assoc (s1 s2 s3 : string) : (s1 +:+ s2) +:+ s3 = s1 +:+ (s2 +:+ s3).
Proof. induction s1 as [|c s1 IH]; [done|]. rewrite !append_cons. by f_equal. Qed.

Lemma no_whitespace_append (s1 s2 : string) :
  no_whitespace (s1 +:+ s2) = no_whitespace s1 && no_whitespace s2.
Proof.
  induction s1 as [|c s1 IH]; [done|]. rewrite append_cons. cbn.
  rewrite IH. by destruct (is_whitespace c).
Qed.

(** Reading a word without whitespace adds it to the word being read. *)
Lemma split_from_word (word w s : string) :
  no_whitespace w = true -> split_from word (w +:+ s) = split_from (word +:+ w) s.
Proof.
  revert word. induction w as [|c w IH]; intros word Hw.
  - by rewrite append_nil_l, append_empty_r.
  - cbn in Hw. apply andb_prop in Hw as [Hc Hw].
    rewrite append_cons. cbn [split_from].
    destruct (is_whitespace c); [done|]. rewrite IH by done.
    by rewrite append_String_assoc.
Qed.

Lemma split_from_space (word s : string) :
  split_from word (" " +:+ s)
  = if decide (word = "") then split_from "" s else word :: split_from "" s.
Proof. reflexivity. Qed.

(** Every string that [split] yields is a token. *)
Lemma split_from_tokens (word s : string) :
  no_whitespace word = true -> Forall is_token (split_from word s).
Proof.
  revert word. induction s as [|c s IH]; intros word Hword; cbn.
  - destruct (decide (word = "")); [constructor|]. by repeat constructor.
  - destruct (is_whitespace c) eqn:Hc.
    + destruct (decide (word = "")); [by apply IH|].
      constructor; [done|]. by apply IH.
    + apply IH. rewrite no_whitespace_append, Hword. cbn. by rewrite Hc.
Qed.

(** [split] yields tokens only, and splitting the tokens joined as
    [train_decomposable_batches] joins them (each token followed by a
    space, or each name preceded by one) gives the tokens back. *)
Theorem split_round_trip (tokens : list string) :
  Forall is_token (split (sentence_for_print tokens))
  /\ (Forall is_token tokens ->
      split (sentence_for_print tokens) = tokens
      /\ split (full_decision_for_print tokens) = tokens).
Proof.
  split; [by apply split_from_tokens|].
  intros Htokens. split.
  - unfold sentence_for_print.
    assert (forall acc,
               fold_left (fun s token => s +:+ token +:+ " ") tokens acc
               = acc +:+ fold_right (fun token r => token +:+ " " +:+ r) "" tokens)
      as ->.
    { clear Htokens. induction tokens as [|t tokens IH]; intros acc; cbn.
      - by rewrite append_empty_r.
      - by rewrite IH, !append_assoc. }
    rewrite append_nil_l. unfold split.
    induction Htokens as [|t tokens [Hne Ht] _ IH]; [done|].
    cbn [fold_right]. rewrite split_from_word by done.
    by rewrite append_nil_l, split_from_space, decide_False, IH by done.
  - unfold full_decision_for_print.
    assert (forall acc,
               fold_left (fun s nm => s +:+ " " +:+ nm) tokens acc
               = acc +:+ fold_right (fun nm r => " " +:+ nm +:+ r) "" tokens)
      as ->.
    { clear Htokens. induction tokens as [|t tokens IH]; intros acc; cbn.
      - by rewrite append_empty_r.
      - by rewrite IH, !append_assoc. }
    rewrite append_nil_l. unfold split.
    assert (forall word,
               split_from word (fold_right (fun nm r => " " +:+ nm +:+ r) "" tokens)
               = (if decide (word = "") then [] else [word]) ++ tokens) as Hsplit;
      [|by rewrite Hsplit].
    induction Htokens as [|t tokens [Hne Ht] _ IH]; intros word.
    + cbn. by destruct (decide (word = "")).
    + cbn [fold_right]. rewrite split_from_space.
      assert (split_from "" (t +:+ foldr (fun nm r => " " +:+ nm +:+ r) "" tokens)
              = t :: tokens) as ->.
      { rewrite split_from_word by done.
        by rewrite append_nil_l, IH, decide_False by done. }
      by destruct (decide (word = "")).
Qed.

(** ** The decision embedder *)

Section EmbedderProperties.
Context `{Runtime}.

Lemma result_map_Return_inv {A B : Type} (f : A -> result B) (l : list A) (ys : list B) :
  result_map f l = Return ys -> Forall2 (fun x y => f x = Return y) l ys.
Proof.
  revert ys. induction l as [|x l IH]; intros ys; cbn.
  - intros [= <-]. constructor.
  - destruct (f x) as [y|e] eqn:Hx; [|done]. cbn.
    destruct (result_map f l) as [ys'|e]; [|done]. cbn. intros [= <-].
    constructor; [done|]. by apply IH.
Qed.

Lemma one_hot_rows (pred_dict : gmap string nat) (decisions : list string)
    (rows : list (list float)) :
  decisions_to_one_hot pred_dict decisions = Return rows ->
  length rows = length decisions
  /\ Forall (fun row => length row = size pred_dict) rows.
Proof.
  intros Hrows. apply result_map_Return_inv in Hrows. split.
  - symmetry. by eapply Forall2_length.
  - induction Hrows as [|decision row decisions rows Hrow _ IH]; constructor; [|done].
    unfold one_hot_decision in Hrow.
    destruct (pred_dict !! decision) as [j|]; [|done].
    destruct (decide _); [|done]. injection Hrow as <-.
    by rewrite length_insert, length_replicate.
Qed.

(** With the one-hot embedder (any type but [stack_embedder]): an error of
    the one-hot encoding is passed on; more decisions than
    [max_stack_size] raise ValueError; otherwise the result has
    [max_stack_size] rows as long as the dictionary, the one-hot rows
    first and rows of zeros after them. *)
Theorem decisions_embedder_one_hot (self : Decoder) (sess : option Session)
    (decisions : list string) (path_cases : option (list Case)) :
  _predicate_embedder_type self <> "stack_embedder" ->
  match decisions_to_one_hot (_predicate2index self) decisions with
  | Raise e => decisions_embedder self sess decisions path_cases = Raise e
  | Return rows =>
      ((_max_stack_size self < Z.of_nat (length decisions))%Z ->
       decisions_embedder self sess decisions path_cases
       = Raise (ValueError "negative dimensions are not allowed"))
      /\ ((Z.of_nat (length decisions) <= _max_stack_size self)%Z ->
          exists padded : list (list float),
            decisions_embedder self sess decisions path_cases = Return padded
            /\ Z.of_nat (length padded) = _max_stack_size self
            /\ Forall (fun row => length row = size (_predicate2index self)) padded
            /\ take (length decisions) padded = rows
            /\ Forall (Forall (eq 0%float)) (drop (length decisions) padded))
  end.
Proof.
  intros Hmode. unfold decisions_embedder. rewrite decide_False by done.
  destruct (decisions_to_one_hot _ decisions) as [rows|e] eqn:Hrows; [|done].
  apply one_hot_rows in Hrows as [Hlength Hwidth]. cbn. rewrite Hlength. split.
  - intros Hmany. by rewrite decide_True by lia.
  - intros Hfew. rewrite decide_False by lia. eexists. split; [done|].
    split; [|split; [|split]].
    + rewrite length_app, length_replicate. lia.
    + apply Forall_app. split; [done|].
      apply Forall_replicate. by rewrite length_replicate.
    + by rewrite <- Hlength, take_app_length.
    + rewrite <- Hlength, drop_app_length.
      apply Forall_replicate, Forall_replicate. done.
Qed.

(** With the stack embedder the decisions are not looked at, and without
    a registered session the call raises ValueError. *)
Theorem decisions_embedder_stack (self : Decoder) (sess : option Session)
    (decisions decisions' : list string) (path_cases : option (list Case)) :
  _predicate_embedder_type self = "stack_embedder" ->
  decisions_embedder self sess decisions path_cases
  = decisions_embedder self sess decisions' path_cases
  /\ (is_Some (_parse_model self) ->
      decisions_embedder self None decisions path_cases
      = Raise (ValueError "No default TensorFlow Session registered.")).
Proof.
  intros Hmode. unfold decisions_embedder. rewrite !decide_True by done.
  split; [done|]. by intros [parse_model ->].
Qed.

(** ** Training the decomposable model on rows *)

Lemma example_rows_length (self : Decoder) (sess : option Session)
    (rows : list (string * string * Z))
    (acc result : list (list Embedding) * list (list (list float)) * list (Z * Z)) :
  result_for rows (example_row self sess) acc = Return result ->
  length result.1.1 = length acc.1.1 + length rows
  /\ length result.1.2 = length acc.1.2 + length rows
  /\ length result.2 = length acc.2 + length rows
  /\ (Forall (fun y => y = (1, 0)%Z \/ y = (0, 1)%Z) acc.2 ->
      Forall (fun y => y = (1, 0)%Z \/ y = (0, 1)%Z) result.2).
Proof.
  revert acc. induction rows as [|[[decision utter] y_hat] rows IH]; intros acc.
  - intros [= <-]. cbn. repeat split; try lia. done.
  - cbn [result_for]. destruct acc as [[b0 b1] ys]. unfold example_row at 1.
    destruct (result_for (split utter) _ []) as [utter_embds|e]; [|done]. cbn [result_bind].
    destruct (pad_utterance _ _) as [padded|e]; [|done]. cbn [result_bind].
    destruct (y_hat_vector y_hat) as [y_hat_vec|e] eqn:Hy; [|done]. cbn [result_bind].
    destruct (decisions_embedder _ _ _ _) as [embedded|e]; [|done]. cbn [result_bind].
    intros Hrest. apply IH in Hrest as (Hb0 & Hb1 & Hb2 & Hys). cbn in *.
    rewrite length_app in Hb0, Hb1, Hb2. cbn in *. repeat split; try lia.
    intros Hacc. apply Hys. apply Forall_app. split; [done|]. constructor; [|done].
    unfold y_hat_vector in Hy.
    destruct (decide _); [injection Hy as <-; by left|].
    destruct (decide _); [injection Hy as <-; by right|done].
Qed.

(** [train_decomposable_on_example] either raises without having called
    the model or the logger, or returns at once because the step counter
    is negative, or returns after exactly three calls: it trains on one
    row per triple of decision, utterance and label, every label a
    one-hot pair, and logs the loss and the accuracy of that call under
    the given step. *)
Theorem train_decomposable_on_example_calls (self : Decoder) (sess : option Session)
    (st : DecoderState) (utters decisions : list string) (y_hats : list Z) (step : nat) :
  let outcome := train_decomposable_on_example self sess st utters decisions y_hats step in
  let n := length (zip (zip decisions utters) y_hats) in
  (exists e : exn, outcome = (Raise e, []))
  \/ ((_train_step_count st < 0)%Z /\ outcome = (Return tt, []))
  \/ ((0 <= _train_step_count st)%Z
      /\ exists (beam_batch : list (list Embedding) * list (list (list float)))
                (y_hat_batch : list (Z * Z)),
          outcome = (Return tt, step_calls self beam_batch y_hat_batch step)
          /\ length beam_batch.1 = n
          /\ length beam_batch.2 = n
          /\ length y_hat_batch = n
          /\ Forall (fun y => y = (1, 0)%Z \/ y = (0, 1)%Z) y_hat_batch).
Proof.
  intros outcome n. subst outcome. unfold train_decomposable_on_example.
  destruct (decide (_train_step_count st < 0)%Z) as [Hneg|Hpos]; [by right; left|].
  destruct (result_for _ (example_row self sess) _) as [[[b0 b1] ys]|e] eqn:Hrows.
  - right. right. split; [lia|].
    apply example_rows_length in Hrows as (Hb0 & Hb1 & Hb2 & Hys). cbn in *.
    exists (b0, b1), ys. split.
    + unfold step_calls. by destruct (train_on_batch _ _ _ _).
    + repeat split; try done. by apply Hys.
  - left. by exists e.
Qed.

End EmbedderProperties.

(** ** Training the decomposable model from a CSV file *)

Section CsvProperties.
Context `{Runtime}.

Lemma result_for_app {A L : Type} (l1 l2 : list A) (body : A -> L -> result L) (acc : L) :
  result_for (l1 ++ l2) body acc
  = result_bind (result_for l1 body acc) (result_for l2 body).
Proof.
  revert acc. induction l1 as [|x l1 IH]; intros acc; [done|].
  cbn. destruct (body x acc); [apply IH|done].
Qed.

Lemma read_rows_from (rows : list (list string))
    (utterances decisions : list string) (y_hats : list Z) :
  Forall well_formed rows ->
  exists (utterances' decisions' : list string) (y_hats' : list Z),
    result_for rows read_row (utterances, decisions, y_hats)
    = Return (utterances ++ utterances', decisions ++ decisions', y_hats ++ y_hats')
    /\ length utterances' = length rows
    /\ length decisions' = length rows
    /\ length y_hats' = length rows.
Proof.
  intros Hrows. revert utterances decisions y_hats.
  induction Hrows as [|row rows (u & d & y & n & -> & Hint) _ IH];
    intros utterances decisions y_hats.
  - exists [], [], []. by rewrite !app_nil_r.
  - destruct (IH (utterances ++ [u]) (decisions ++ [d]) (y_hats ++ [n]))
      as (us & ds & ys & Hloop & Hus & Hds & Hys).
    exists (u :: us), (d :: ds), (n :: ys). cbn. rewrite Hint. cbn.
    rewrite Hloop, <- !app_assoc. cbn. by rewrite Hus, Hds, Hys.
Qed.

Lemma read_row_bad (row : list string) (acc : list string * list string * list Z) :
  ~ well_formed row -> exists msg : string, read_row row acc = Raise (ValueError msg).
Proof.
  intros Hbad. destruct acc as [[utterances decisions] y_hats]. unfold read_row.
  destruct row as [|u [|d [|y [|extra row]]]]; try by eexists.
  destruct (int y) as [n|] eqn:Hint; [|by eexists].
  destruct Hbad. by exists u, d, y, n.
Qed.

#[local] Set Warnings "-abstract-large-number".

(** With at most 30 rows in the file, all of them well formed, no batch of
    30 can be sampled from the rows after the first:
    [train_decomposable_from_csv] raises ValueError at its first step. It
    has raised the step counter by then, and has not trained. *)
Theorem train_decomposable_from_csv_few_rows (self : Decoder) (sess : option Session)
    (rows : list (list string)) (st : DecoderState) :
  Forall well_formed rows ->
  length rows <= 30 ->
  train_decomposable_from_csv self sess rows st
  = (Raise (ValueError "sample larger than population"),
     set_train_step_count (_train_step_count st + 1) st, []).
Proof.
  intros Hrows Hfew. unfold train_decomposable_from_csv, read_rows.
  change (result_for rows _ ([], [], [])) with (result_for rows read_row ([], [], [])).
  destruct (read_rows_from rows [] [] [] Hrows) as (us & ds & ys & -> & Hus & Hds & Hys).
  cbn [app].
  change 10000 with (S 9999). cbn [csv_steps].
  unfold sample_indices. rewrite length_seq, decide_False by lia. reflexivity.
Qed.

(** A row that does not have three fields, or whose third field is not an
    integer, makes [train_decomposable_from_csv] raise ValueError before
    any training, whatever follows it in the file. *)
Theorem train_decomposable_from_csv_bad_row (self : Decoder) (sess : option Session)
    (good rest : list (list string)) (bad : list string) (st : DecoderState) :
  Forall well_formed good ->
  ~ well_formed bad ->
  exists msg : string,
    train_decomposable_from_csv self sess (good ++ bad :: rest) st
    = (Raise (ValueError msg), set_train_step_count (_train_step_count st + 1) st, []).
Proof.
  intros Hgood Hbad. unfold train_decomposable_from_csv, read_rows.
  change (result_for (good ++ bad :: rest) _ ([], [], []))
    with (result_for (good ++ bad :: rest) read_row ([], [], [])).
  rewrite result_for_app.
  destruct (read_rows_from good [] [] [] Hgood) as (us & ds & ys & -> & _).
  cbn [result_bind result_for app].
  destruct (read_row_bad bad (us, ds, ys) Hbad) as [msg ->].
  by exists msg.
Qed.

Lemma read_rows_length (rows : list (list string))
    (acc result : list string * list string * list Z) :
  result_for rows read_row acc = Return result ->
  length result.1.2 = length acc.1.2 + length rows.
Proof.
  revert acc. induction rows as [|row rows IH]; intros [[us ds] ys].
  - intros [= <-]. cbn. lia.
  - cbn [result_for]. destruct (read_row row (us, ds, ys)) as [acc'|e] eqn:Hrow; [|done].
    cbn [result_bind]. intros Hrest. apply IH in Hrest as ->.
    unfold read_row in Hrow. destruct row as [|u [|d [|y [|extra row]]]]; try done.
    destruct (int y); [|done]. injection Hrow as <-. cbn. rewrite length_app. cbn. lia.
Qed.

Lemma pick_rows_length (utterances decisions : list string) (y_hats : list Z)
    (batch_indices : list nat) (acc result : list string * list string * list Z) :
  result_for batch_indices
    (fun j '(curr_utterances, curr_decisions, curr_y_hats) =>
       result_bind (list_get utterances j) (fun utterance =>
       result_bind (list_get decisions j) (fun decision =>
       result_bind (list_get y_hats j) (fun y_hat =>
       Return (curr_utterances ++ [utterance], curr_decisions ++ [decision],
               curr_y_hats ++ [y_hat])))))
    acc
  = Return result ->
  length result.1.1 = length acc.1.1 + length batch_indices
  /\ length result.1.2 = length acc.1.2 + length batch_indices
  /\ length result.2 = length acc.2 + length batch_indices.
Proof.
  revert acc. induction batch_indices as [|j batch_indices IH]; intros [[us ds] ys].
  - intros [= <-]. cbn. lia.
  - cbn [result_for].
    destruct (list_get utterances j) as [u|e]; [|done]. cbn [result_bind].
    destruct (list_get decisions j) as [d|e]; [|done]. cbn [result_bind].
    destruct (list_get y_hats j) as [y|e]; [|done]. cbn [result_bind].
    intros Hrest. apply IH in Hrest as (-> & -> & ->). cbn.
    rewrite !length_app. cbn. lia.
Qed.

(** A call of [train_decomposable_on_example] that returns, for a step
    counter that is not negative. *)
Lemma train_decomposable_on_example_Return (self : Decoder) (sess : option Session)
    (st : DecoderState) (utters decisions : list string) (y_hats : list Z) (step : nat)
    (calls : list DecomposableCall) :
  (0 <= _train_step_count st)%Z ->
  train_decomposable_on_example self sess st utters decisions y_hats step
  = (Return tt, calls) ->
  exists (beam_batch : list (list Embedding) * list (list (list float)))
         (y_hat_batch : list (Z * Z)),
    calls = step_calls self beam_batch y_hat_batch step
    /\ length y_hat_batch = length (zip (zip decisions utters) y_hats).
Proof.
  intros Hcounter. unfold train_decomposable_on_example.
  rewrite decide_False by lia.
  destruct (result_for _ (example_row self sess) _) as [[[b0 b1] ys]|e] eqn:Hrows; [|done].
  apply example_rows_length in Hrows as (_ & _ & Hys & _). cbn in Hys.
  intros Hcalls. exists (b0, b1), ys. split; [|done].
  unfold step_calls. destruct (train_on_batch _ _ _ _). by injection Hcalls as <-.
Qed.

(** The steps of the loop, when none of them raises. *)
Lemma csv_steps_Return (self : Decoder) (sess : option Session) (st : DecoderState)
    (utterances decisions : list string) (y_hats : list Z) (i steps : nat)
    (calls : list DecomposableCall) :
  (0 <= _train_step_count st)%Z ->
  sampler_ok ->
  csv_steps self sess st utterances decisions y_hats i steps = (Return tt, calls) ->
  (0 < steps -> 30 < length decisions)
  /\ exists batches : list (list (list Embedding) * list (list (list float)) * list (Z * Z)),
      length batches = steps
      /\ calls = concat (imap (fun j batch => step_calls self batch.1 batch.2 (i + j)) batches)
      /\ Forall (fun batch => length batch.2 = 30) batches.
Proof.
  intros Hcounter Hsample. revert i calls.
  induction steps as [|steps IH]; intros i calls.
  - intros [= <-]. split; [lia|]. by exists [].
  - cbn [csv_steps]. unfold sample_indices at 1. rewrite length_seq.
    destruct (decide (30 <= length decisions - 1)) as [Henough|]; [|done].
    cbn [result_bind].
    destruct (pick_rows _ _ _ _) as [[[cu cd] cy]|e] eqn:Hpick; [|done].
    apply pick_rows_length in Hpick as (Hcu & Hcd & Hcy). cbn in Hcu, Hcd, Hcy.
    destruct (Hsample i (seq 1 (length decisions - 1)) 30) as [Hk _];
      [by rewrite length_seq|].
    rewrite Hk in Hcu, Hcd, Hcy.
    destruct (train_decomposable_on_example self sess st cu cd cy i)
      as [[[]|e] calls1] eqn:Hstep; [|done].
    apply train_decomposable_on_example_Return in Hstep as (batch & ys & -> & Hys);
      [|done].
    destruct (csv_steps self sess st utterances decisions y_hats (S i) steps)
      as [r calls2] eqn:Hrest.
    intros [= -> <-]. apply IH in Hrest as (_ & batches & Hlen & -> & Hbatches).
    split; [lia|].
    exists ((batch, ys) :: batches). split; [by cbn; rewrite Hlen|]. split.
    + cbn [imap concat fst snd]. rewrite Nat.add_0_r.
      apply (f_equal (app (step_calls self batch ys i))). f_equal.
      apply imap_ext. intros j b _. cbn. f_equal. lia.
    + constructor; [|done]. cbn. rewrite Hys, !length_zip_with. lia.
Qed.

(** When [train_decomposable_from_csv] returns, with a sampler that keeps
    to what [random.sample] promises and a step counter that was not negative:
    the file had more than 30 rows, the step counter is one higher, and the
    calls made are, for each of the steps 0 to 9999 in turn, one training
    call on 30 rows and the two log entries for that step. *)
Theorem train_decomposable_from_csv_calls (self : Decoder) (sess : option Session)
    (rows : list (list string)) (st st' : DecoderState) (calls : list DecomposableCall) :
  counter_invariant st ->
  sampler_ok ->
  train_decomposable_from_csv self sess rows st = (Return tt, st', calls) ->
  st' = set_train_step_count (_train_step_count st + 1) st
  /\ 30 < length rows
  /\ exists batches : list (list (list Embedding) * list (list (list float)) * list (Z * Z)),
      length batches = 10000
      /\ calls = concat (imap (fun j batch => step_calls self batch.1 batch.2 j) batches)
      /\ Forall (fun batch => length batch.2 = 30) batches.
Proof.
  intros Hcounter Hsample. unfold train_decomposable_from_csv, read_rows.
  change (result_for rows _ ([], [], [])) with (result_for rows read_row ([], [], [])).
  destruct (result_for rows read_row ([], [], [])) as [[[us ds] ys]|e] eqn:Hread; [|done].
  apply read_rows_length in Hread. cbn in Hread.
  destruct (csv_steps _ _ _ _ _ _ _ _) as [r calls'] eqn:Hsteps.
  intros [= -> <- <-]. split; [done|].
  apply csv_steps_Return in Hsteps as (Hlength & batches & Hlen & -> & Hbatches);
    [|unfold counter_invariant in Hcounter; cbn; lia|done].
  split; [rewrite <- Hread; apply Hlength; change 10000 with (S 9999); lia|].
  by exists batches.
Qed.


(** *** Files that can be trained on *)

Lemma rows_fields (P : string * string * Z -> Prop) (rows : list (list string)) :
  Forall (fun row => exists fields, row_fields row fields /\ P fields) rows ->
  exists fs : list (string * string * Z), Forall2 row_fields rows fs /\ Forall P fs.
Proof.
  induction 1 as [|row rows (fields & Hrow & HP) _ (fs & Hfs & HPs)].
  - by exists [].
  - exists (fields :: fs). split; by constructor.
Qed.

Lemma read_rows_fields (rows : list (list string)) (fs : list (string * string * Z))
    (utterances decisions : list string) (y_hats : list Z) :
  Forall2 row_fields rows fs ->
  result_for rows read_row (utterances, decisions, y_hats)
  = Return (utterances ++ fs.*1.*1, decisions ++ fs.*1.*2, y_hats ++ fs.*2).
Proof.
  intros Hrows. revert utterances decisions y_hats.
  induction Hrows as [|row [[u d] n] rows fs (y & -> & Hint) _ IH];
    intros utterances decisions y_hats.
  - by rewrite !app_nil_r.
  - cbn in Hint. cbn [result_for read_row fst snd]. rewrite Hint. cbn [result_bind].
    rewrite IH, !fmap_cons, <- !app_assoc. done.
Qed.

Lemma pick_rows_fields (fs : list (string * string * Z)) (batch_indices : list nat)
    (acc : list string * list string * list Z) :
  Forall (fun j => j < length fs) batch_indices ->
  exists picked : list (string * string * Z),
    Forall2 (fun j f => fs !! j = Some f) batch_indices picked
    /\ result_for batch_indices
         (fun j '(curr_utterances, curr_decisions, curr_y_hats) =>
            result_bind (list_get fs.*1.*1 j) (fun utterance =>
            result_bind (list_get fs.*1.*2 j) (fun decision =>
            result_bind (list_get fs.*2 j) (fun y_hat =>
            Return (curr_utterances ++ [utterance], curr_decisions ++ [decision],
                    curr_y_hats ++ [y_hat])))))
         acc
       = Return (acc.1.1 ++ picked.*1.*1, acc.1.2 ++ picked.*1.*2, acc.2 ++ picked.*2).
Proof.
  intros Hindices. revert acc.
  induction Hindices as [|j batch_indices Hj _ IH]; intros [[cu cd] cy].
  - exists []. split; [constructor|]. cbn. by rewrite !app_nil_r.
  - apply lookup_lt_is_Some_2 in Hj as [[[u d] n] Hf].
    destruct (IH (cu ++ [u], cd ++ [d], cy ++ [n])) as (picked & Hpicked & Hloop).
    exists ((u, d, n) :: picked). split; [by constructor|].
    cbn [result_for]. unfold list_get at 1 2 3.
    rewrite !list_lookup_fmap, Hf. cbn [fmap option_fmap option_map result_bind fst snd].
    rewrite Hloop. cbn [fst snd]. by rewrite !fmap_cons, <- !app_assoc.
Qed.

Lemma embed_row_tokens_Return (self : Decoder) (tokens : list string)
    (utter_embds : list Embedding) :
  Forall (fun token => is_Some (_glove_embeddings self !! token)) tokens ->
  exists embds : list Embedding,
    result_for tokens
      (fun token utter_embds =>
         result_bind (glove_embedding self token) (fun e => Return (utter_embds ++ [e])))
      utter_embds
    = Return (utter_embds ++ embds)
    /\ length embds = length tokens.
Proof.
  intros Hknown. revert utter_embds.
  induction Hknown as [|token tokens [e He] _ IH]; intros utter_embds.
  - exists []. by rewrite app_nil_r.
  - destruct (IH (utter_embds ++ [e])) as (embds & Hloop & Hlen).
    exists (e :: embds). split; [|by cbn; rewrite Hlen].
    cbn [result_for]. unfold glove_embedding at 1. rewrite He. cbn [result_bind].
    rewrite Hloop. by rewrite <- app_assoc.
Qed.

Lemma y_hat_vector_Return (n : Z) :
  (-2 <= n <= 1)%Z -> exists y_hat_vec : Z * Z, y_hat_vector n = Return y_hat_vec.
Proof.
  intros Hn. unfold y_hat_vector.
  destruct (decide _); [by eexists|]. destruct (decide _); [by eexists|]. lia.
Qed.

Lemma decisions_to_one_hot_Return (pred_dict : gmap string nat) (decisions : list string) :
  Forall (fun d => exists j : nat, pred_dict !! d = Some j /\ j < size pred_dict)
    decisions ->
  exists rows : list (list float),
    decisions_to_one_hot pred_dict decisions = Return rows
    /\ length rows = length decisions.
Proof.
  unfold decisions_to_one_hot.
  induction 1 as [|d decisions (j & Hj & Hlt) _ (rows & IH & Hlen)].
  - by exists [].
  - eexists. cbn [result_map]. unfold one_hot_decision at 1.
    rewrite Hj, decide_True by done. cbn [result_bind]. rewrite IH. cbn [result_bind].
    split; [done|]. cbn. by rewrite Hlen.
Qed.

Lemma decisions_embedder_Return (self : Decoder) (sess : option Session)
    (decisions : list string) (path_cases : option (list Case)) :
  _predicate_embedder_type self <> "stack_embedder" ->
  Forall
    (fun d =>
       exists j : nat,
         _predicate2index self !! d = Some j /\ j < size (_predicate2index self))
    decisions ->
  (Z.of_nat (length decisions) <= _max_stack_size self)%Z ->
  exists padded : list (list float),
    decisions_embedder self sess decisions path_cases = Return padded.
Proof.
  intros Hmode Hknown Hfew.
  destruct (decisions_to_one_hot_Return _ _ Hknown) as (rows & Hrows & Hlen).
  unfold decisions_embedder. rewrite decide_False by done. rewrite Hrows.
  cbn [result_bind]. rewrite Hlen, decide_False by lia. by eexists.
Qed.

Lemma example_rows_Return (self : Decoder) (sess : option Session)
    (fs : list (string * string * Z))
    (acc : list (list Embedding) * list (list (list float)) * list (Z * Z)) :
  _predicate_embedder_type self <> "stack_embedder" ->
  Forall (trainable_fields self) fs ->
  exists result,
    result_for ((fun f => (f.1.2, f.1.1, f.2)) <$> fs) (example_row self sess) acc
    = Return result.
Proof.
  intros Hmode Hfs. revert acc.
  induction Hfs as [|[[u d] n] fs (Hn & Hknown & Hpos & Hlen & Hdec & Hstack) _ IH];
    intros [[b0 b1] ys].
  - by eexists.
  - rewrite fmap_cons. cbn [result_for fst snd]. unfold example_row at 1.
    destruct (embed_row_tokens_Return self (split u) [] Hknown) as (embds & -> & Hembds).
    cbn [result_bind app].
    destruct (pad_utterance_Return (_utter_len self) embds) as [padded ->]; [lia..|].
    cbn [result_bind].
    destruct (y_hat_vector_Return n Hn) as [y_hat_vec ->]. cbn [result_bind].
    destruct (decisions_embedder_Return self sess (split d) None Hmode Hdec Hstack)
      as [embedded ->].
    cbn [result_bind]. apply IH.
Qed.

Lemma zip_fields (picked : list (string * string * Z)) :
  zip (zip picked.*1.*2 picked.*1.*1) picked.*2
  = (fun f => (f.1.2, f.1.1, f.2)) <$> picked.
Proof.
  induction picked as [|[[u d] n] picked IH]; [done|].
  rewrite !fmap_cons. cbn. by rewrite IH.
Qed.

Lemma train_decomposable_on_example_total (self : Decoder) (sess : option Session)
    (st : DecoderState) (picked : list (string * string * Z)) (step : nat) :
  _predicate_embedder_type self <> "stack_embedder" ->
  Forall (trainable_fields self) picked ->
  exists calls : list DecomposableCall,
    train_decomposable_on_example self sess st picked.*1.*1 picked.*1.*2 picked.*2 step
    = (Return tt, calls).
Proof.
  intros Hmode Hpicked. unfold train_decomposable_on_example.
  destruct (decide _); [by eexists|]. rewrite zip_fields.
  destruct (example_rows_Return self sess picked ([], [], []) Hmode Hpicked)
    as [[[b0 b1] ys] ->].
  destruct (train_on_batch _ _ _ _). by eexists.
Qed.

(** The steps of the loop on a file whose rows after the first are
    trainable: none raises. *)
Lemma csv_steps_total (self : Decoder) (sess : option Session) (st : DecoderState)
    (f0 : string * string * Z) (fs : list (string * string * Z)) (i steps : nat) :
  sampler_ok ->
  _predicate_embedder_type self <> "stack_embedder" ->
  Forall (trainable_fields self) fs ->
  30 <= length fs ->
  exists calls : list DecomposableCall,
    csv_steps self sess st (f0 :: fs).*1.*1 (f0 :: fs).*1.*2 (f0 :: fs).*2 i steps
    = (Return tt, calls).
Proof.
  intros Hsample Hmode Hfs Hmany. revert i.
  induction steps as [|steps IH]; intros i; [by eexists|].
  cbn [csv_steps]. unfold sample_indices.
  rewrite length_seq, !length_fmap.
  change (length (f0 :: fs)) with (S (length fs)).
  rewrite decide_True by lia. cbn [result_bind].
  destruct (Hsample i (seq 1 (S (length fs) - 1)) 30) as [_ Hin];
    [rewrite length_seq; lia|].
  unfold pick_rows.
  destruct (pick_rows_fields (f0 :: fs) (random_sample i (seq 1 (S (length fs) - 1)) 30)
              ([], [], []))
    as (picked & Hpicked & ->).
  { eapply Forall_impl; [exact Hin|]. intros j Hj. apply elem_of_seq in Hj. cbn. lia. }
  cbn [app fst snd].
  assert (Forall (trainable_fields self) picked) as Htrainable.
  { apply Forall_lookup. intros k f Hk.
    destruct (Forall2_lookup_r _ _ _ _ _ Hpicked Hk) as (j & Hj & Hf).
    rewrite Forall_lookup in Hin. apply Hin in Hj. apply elem_of_seq in Hj.
    destruct j as [|j]; [lia|]. cbn in Hf.
    rewrite Forall_lookup in Hfs. by eapply Hfs. }
  destruct (train_decomposable_on_example_total self sess st picked i Hmode Htrainable)
    as [calls1 ->].
  destruct (IH (S i)) as [calls2 ->]. by eexists.
Qed.

(** On such a file [train_decomposable_from_csv] returns. *)
Lemma train_decomposable_from_csv_total (self : Decoder) (sess : option Session)
    (first : list string) (others : list (list string)) (st : DecoderState) :
  sampler_ok ->
  _predicate_embedder_type self <> "stack_embedder" ->
  well_formed first ->
  Forall (trainable self) others ->
  30 <= length others ->
  exists calls : list DecomposableCall,
    train_decomposable_from_csv self sess (first :: others) st
    = (Return tt, set_train_step_count (_train_step_count st + 1) st, calls).
Proof.
  intros Hsample Hmode (u & d & y & n & -> & Hint) Hothers Hmany.
  destruct (rows_fields (trainable_fields self) others Hothers) as (fs & Hrows & Hfs).
  unfold train_decomposable_from_csv, read_rows.
  change (result_for ([u; d; y] :: others) _ ([], [], []))
    with (result_for ([u; d; y] :: others) read_row ([], [], [])).
  rewrite (read_rows_fields _ ((u, d, n) :: fs)) by (constructor; [by exists y|done]).
  cbn [app].
  destruct (csv_steps_total self sess (set_train_step_count (_train_step_count st + 1) st)
              (u, d, n) fs 0 10000 Hsample Hmode Hfs)
    as [calls ->]; [by rewrite <- (Forall2_length _ _ _ Hrows)|].
  by exists calls.
Qed.


End CsvProperties.

(** * The properties on the small instance *)

Import Toy.

(** ** Runs of the training step *)

(** A batch on which [train_step] goes through: the two finished paths
    have the cases 1, 2, 3 and 4, 5, with the weights 0.5, 0, 2 and -0, 1;
    the parse model is trained on the cases 1, 3 and 5. *)
Example train_step_run :
  train_step (decoder "local" 4 weighter beam) [example] initial_state
  = (Return tt,
     {| _train_step_count := 1;
        correct_predictions := 2;
        all_predictions := 2;
        _decomposable_data :=
          Some [("go left ", " walk turn stop", 1%Z); ("go left ", " turn stop", 1%Z)];
        model_updates :=
          [ValueFunctionTrainStep [(3, true); (2, true)];
           ParseModelTrainStep [1; 3; 5] [0.5; 2; 1]%float false] |}).
Proof. vm_compute. reflexivity. Qed.



(** train_step_prunes at the run above. *)
Lemma train_step_prunes_witness :
  exists (vf_examples : list (nat * bool)) (cases : list nat) (weights : list float),
    model_updates (train_step (decoder "local" 4 weighter beam) [example] initial_state).2
    = [ValueFunctionTrainStep vf_examples; ParseModelTrainStep cases weights false]
    /\ Forall (fun weight => PrimFloat.eqb weight 0 = false) weights.
Proof.
  destruct (train_step_prunes
              (decoder "local" 4 weighter beam) [example] initial_state
              (train_step (decoder "local" 4 weighter beam) [example] initial_state).2)
    as (vf_examples & cases & weights & Hupdates & _ & Hlength & _ & Hnonzero & _).
  - vm_compute. reflexivity.
  - exists vf_examples, cases, weights. split; [exact Hupdates|].
    apply Forall_forall. intros weight Hweight.
    apply list_elem_of_lookup in Hweight as [i Hi].
    destruct (lookup_lt_is_Some_2 cases i) as [case Hcase].
    { rewrite Hlength. by eapply lookup_lt_Some. }
    apply (Hnonzero case). apply list_elem_of_lookup. exists i.
    by apply lookup_zip_with_Some; exists case, weight.
Defined.

(** ** Prediction *)

(** For a batch of two examples the policy returns two beams; each is cut
    down to its finished paths. *)
Example predictions_run :
  predictions (decoder "local" 4 weighter beam) [example; example] true false
  = [ {| _paths := [path_a; path_c] |}; {| _paths := [path_a; path_c] |} ].
Proof. reflexivity. Qed.

(** ** The batches for the decomposable model *)

(** train_decomposable_batches_empty_beams at a fresh decoder and a batch
    of one example whose beam has no finished path. *)
Lemma train_decomposable_batches_empty_beams_witness :
  exists st' : DecoderState,
    train_decomposable_batches (decoder "local" 4 weighter unfinished_beam)
      [get_terminated unfinished_beam] [example] initial_state
    = (Raise (UnboundLocalError "beam_batch_correct"), st')
    /\ _train_step_count st' = 1%Z.
Proof.
  destruct (train_decomposable_batches_empty_beams
              (decoder "local" 4 weighter unfinished_beam)
              [get_terminated unfinished_beam] [example] initial_state)
    as (_ & st' & Hraise & _ & Hcount & _).
  - exact initial_state_invariant.
  - by apply Forall_cons.
  - by exists st'.
Defined.

(** ** Probabilities *)


(** C9 fails on every beam whose paths all have the same score: the
    shifted scores are all 0, so is their sum, and every probability is
    nan. Here on a beam of one path and on a beam of two, for a decoder
    with global normalization and for one that [__init__] returns for a
    configuration whose normalization is neither [local] nor [global]. *)
Theorem get_probs_global_equal_scores_nan :
  get_probs (decoder "global" 4 weighter beam) {| _paths := [path_a] |} = Return [NaN]
  /\ get_probs (decoder "global" 4 weighter beam) {| _paths := [path_a; path_b] |}
     = Return [NaN; NaN]
  /\ exists (self : Decoder) (st : DecoderState) (calls : list FactoryCall),
      __init__ (Some scorer) (config "softmax") tt glove [walk; turn; stop] 4 3 tt "one_hot"
      = (Return (self, st), calls)
      /\ get_probs self {| _paths := [path_a] |} = Return [NaN].
Proof.
  split; [|split].
  - by apply (get_probs_global_equal_scores _ {| _paths := [path_a] |} 2);
      [|repeat constructor].
  - by apply (get_probs_global_equal_scores _ {| _paths := [path_a; path_b] |} 2);
      [|repeat constructor].
  - eexists _, _, _. split; [reflexivity|].
    by apply (get_probs_global_equal_scores _ {| _paths := [path_a] |} 2);
      [|repeat constructor].
Qed.

(** ** Construction *)

(** init_global_raises at a configuration with global normalization. *)
Lemma init_global_raises_witness :
  exists calls : list FactoryCall,
    __init__ (Some scorer) (config "global") tt glove [walk; turn; stop] 4 3 tt "one_hot"
    = (Raise (ValueError "Global normalization is no longer supported."), calls).
Proof.
  destruct (init_global_raises (Some scorer) (config "global") tt glove
              [walk; turn; stop] 4 3 tt "one_hot")
    as (calls & Hraise & _).
  - reflexivity.
  - by exists calls.
Defined.

(** ** Score breakdown *)

(** The groups for paths of 3, 0 and 2 cases. *)
Example score_breakdown_run :
  score_breakdown (decoder "local" 4 weighter beam) [path_a; path_b; path_c]
  = Return ([[1; 2; 3]; []; [4; 5]], [[1; 2; 3]; []; [4; 5]]).
Proof. vm_compute. reflexivity. Qed.


(** ** The predicate dictionary *)

(** The dictionary and the encoding of the specification's example. *)
Example predicate_dictionary_run :
  _build_predicate_dictionary [walk; turn; stop]
  = {[ "walk" := 0; "turn" := 1; "stop" := 2 ]}
  /\ decisions_to_one_hot (_build_predicate_dictionary [walk; turn; stop]) ["turn"; "stop"]
     = Return [[0; 1; 0]; [0; 0; 1]]%float.
Proof. split; vm_compute; reflexivity. Qed.

(** predicate_dictionary_one_hot at that example. *)
Lemma predicate_dictionary_one_hot_witness :
  size (_build_predicate_dictionary [walk; turn; stop]) = 3
  /\ exists rows : list (list float),
      decisions_to_one_hot (_build_predicate_dictionary [walk; turn; stop]) ["turn"; "stop"]
      = Return rows
      /\ length rows = 2.
Proof.
  destruct (predicate_dictionary_one_hot [walk; turn; stop]) as [_ Hdistinct].
  destruct Hdistinct as (Hsize & _ & Hone_hot).
  - apply (bool_decide_unpack _). vm_compute. exact I.
  - split; [exact Hsize|].
    destruct (Hone_hot ["turn"; "stop"]) as (rows & Hrows & Hlength & _).
    + repeat constructor; apply (bool_decide_unpack _); vm_compute; exact I.
    + exists rows. split; [exact Hrows|exact Hlength].
Defined.

(** C7 as stated fails when a name occurs twice: the one entry of the
    dictionary has the index 1, which is not below the size 1 of the
    dictionary, and one-hot encoding of the name raises IndexError. *)
Lemma predicate_dictionary_one_hot_counterexample :
  _build_predicate_dictionary [walk; walk] = {[ "walk" := 1 ]}
  /\ size (_build_predicate_dictionary [walk; walk]) = 1
  /\ decisions_to_one_hot (_build_predicate_dictionary [walk; walk]) ["walk"]
     = Raise IndexError.
Proof. repeat split; vm_compute; reflexivity. Qed.

(** * The further properties on the small instances *)

Import ToyRuntime.

(** ** Probabilities under the min-shift *)

Lemma shifted_scores_sum_example :
  np_sum (shifted_scores {| _paths := [path_a; path_c] |}) <> 0%R.
Proof.
  unfold shifted_scores, np_sum. cbn [_paths map fold_left score path_a path_c].
  unfold Rmin. destruct (Rle_dec 2 5); lra.
Qed.


(** get_probs_global_min_zero on the same beam: the path of score 2. *)
Lemma get_probs_global_min_zero_witness :
  exists probs : list npfloat,
    get_probs (decoder "global" 4 weighter beam) {| _paths := [path_a; path_c] |}
    = Return probs
    /\ probs !! 0 = Some (Finite 0).
Proof.
  apply (get_probs_global_min_zero (decoder "global" 4 weighter beam)
           {| _paths := [path_a; path_c] |} 0 path_a).
  - discriminate.
  - exact shifted_scores_sum_example.
  - reflexivity.
  - repeat constructor; cbn; lra.
Defined.

(** ** The one-hot encoding *)

(** decisions_to_one_hot_unknown: "jump" is no predicate. *)
Lemma decisions_to_one_hot_unknown_witness :
  decisions_to_one_hot (_build_predicate_dictionary [walk; turn; stop])
    ["turn"; "jump"; "stop"]
  = Raise (KeyError "jump").
Proof.
  apply (decisions_to_one_hot_unknown [walk; turn; stop] ["turn"] ["stop"] "jump").
  - apply (bool_decide_unpack _). vm_compute. exact I.
  - by repeat constructor.
  - apply (bool_decide_unpack _). vm_compute. exact I.
Defined.

(** decisions_to_one_hot_duplicate: two predicates of the same name. *)
Lemma decisions_to_one_hot_duplicate_witness :
  decisions_to_one_hot (_build_predicate_dictionary [walk; turn; walk]) ["walk"]
  = Raise IndexError.
Proof.
  apply (decisions_to_one_hot_duplicate [walk; turn; walk] walk []).
  - apply (bool_decide_unpack _). vm_compute. exact I.
  - reflexivity.
Defined.

(** ** Score breakdown *)

(** score_breakdown_prefix at the three paths of 3, 0 and 2 cases. *)
Lemma score_breakdown_prefix_witness :
  exists (grouped_attentions grouped_subscores : list (list nat)),
    score_breakdown (decoder "local" 4 weighter beam) [path_a; path_b; path_c]
    = Return (grouped_attentions, grouped_subscores)
    /\ length grouped_attentions = 3.
Proof.
  destruct (score_breakdown_prefix (decoder "local" 4 weighter beam) scorer
              [path_a; path_b; path_c])
    as (grouped_attentions & grouped_subscores & Hgroups & Hlength & _).
  - reflexivity.
  - by exists grouped_attentions, grouped_subscores.
Defined.

(** score_breakdown_no_model at a decoder without parse model. *)
Lemma score_breakdown_no_model_witness :
  score_breakdown (without_parse_model (decoder "local" 4 weighter beam)) [path_a]
  = Raise AttributeError.
Proof.
  by apply (score_breakdown_no_model
              (without_parse_model (decoder "local" 4 weighter beam)) [path_a]).
Defined.

(** ** The batches for the decomposable model *)

Lemma glove_knows_go_left :
  Forall (fun token => is_Some (glove !! token)) ["go"; "left"].
Proof. repeat constructor; by eexists. Qed.

(** train_decomposable_batches_returns at the batch of the run above. *)
Lemma train_decomposable_batches_returns_witness :
  (train_decomposable_batches (decoder "local" 4 weighter beam)
     [get_terminated beam] [example] initial_state).1
  = Return (Some [("go left ", " walk turn stop", 1%Z); ("go left ", " turn stop", 1%Z)]).
Proof.
  rewrite (train_decomposable_batches_returns (decoder "local" 4 weighter beam)
             [get_terminated beam] [example] initial_state).
  - reflexivity.
  - exact initial_state_invariant.
  - constructor; [|constructor]. split; [exact glove_knows_go_left|]. cbn. lia.
  - by apply Exists_cons_hd.
Defined.

(** train_decomposable_batches_missing_embedding: "go north left", where
    "north" has no embedding. *)
Lemma train_decomposable_batches_missing_embedding_witness :
  train_decomposable_batches (decoder "local" 4 weighter north_beam)
    [north_beam] [example] initial_state
  = (Raise (KeyError "north"), set_train_step_count 1 initial_state).
Proof.
  rewrite (train_decomposable_batches_missing_embedding
             (decoder "local" 4 weighter north_beam) [north_beam] [example]
             initial_state [] [] example north_beam path_north [] ["go"] ["left"] "north").
  - reflexivity.
  - exact initial_state_invariant.
  - reflexivity.
  - constructor.
  - reflexivity.
  - reflexivity.
  - repeat constructor. by eexists.
  - reflexivity.
Defined.


(** ** The training step *)

(** train_step_no_finished_path at a policy that finishes no path. *)
Lemma train_step_no_finished_path_witness :
  train_step (decoder "local" 4 weighter unfinished_beam) [example] initial_state
  = (Raise (UnboundLocalError "beam_batch_correct"), set_train_step_count 1 initial_state).
Proof.
  apply (train_step_no_finished_path
           (decoder "local" 4 weighter unfinished_beam) [example] initial_state).
  - exact initial_state_invariant.
  - by repeat constructor.
Defined.

(** train_step_returns at the run above. *)
Lemma train_step_returns_witness :
  Return
    (_decomposable_data
       (train_step (decoder "local" 4 weighter beam) [example] initial_state).2)
  = (train_decomposable_batches (decoder "local" 4 weighter beam)
       [get_terminated beam] [example] initial_state).1.
Proof.
  destruct (train_step_returns (decoder "local" 4 weighter beam) [example] initial_state
              (train_step (decoder "local" 4 weighter beam) [example] initial_state).2)
    as (data & st1 & cases & weights & Hbatches & Hdata & _).
  - vm_compute. reflexivity.
  - rewrite Hdata. change (predictions _ _ _ _) with [get_terminated beam] in Hbatches.
    by rewrite Hbatches.
Defined.

(** train_step_completes at the run above. *)
Lemma train_step_completes_witness :
  model_updates (train_step (decoder "local" 4 weighter beam) [example] initial_state).2
  = [ValueFunctionTrainStep [(3, true); (2, true)];
     ParseModelTrainStep [1; 3; 5] [0.5; 2; 1]%float false].
Proof.
  pose proof (train_step_completes (decoder "local" 4 weighter beam) [example]
                initial_state weighter tt scorer initial_state_invariant
                eq_refl eq_refl eq_refl) as Hrun.
  cbv zeta in Hrun. rewrite Hrun.
  - vm_compute. reflexivity.
  - constructor; [|constructor]. split; [exact glove_knows_go_left|]. cbn. lia.
  - by apply Exists_cons_hd.
  - constructor; [|constructor]. vm_compute. reflexivity.
Defined.

(** train_step_mismatch_raises at the short case weighter and an utterance
    that is too long, so that [train_decomposable_batches] raises too. *)
Lemma train_step_mismatch_raises_witness :
  exists (e : exn) (st' : DecoderState),
    train_step (decoder "local" 1 short_weighter beam) [example] initial_state
    = (Raise e, st')
    /\ model_updates st' = [].
Proof.
  apply (train_step_mismatch_raises (decoder "local" 1 short_weighter beam) [example]
           initial_state short_weighter).
  - reflexivity.
  - apply Exists_cons_hd. vm_compute. discriminate.
Defined.

(** ** Construction *)

(** init_without_parse_model at the factories of the small instance. *)
Lemma init_without_parse_model_witness :
  exists (self : Decoder) (st0 : DecoderState) (calls : list FactoryCall),
    __init__ None (config "local") tt glove [walk; turn; stop] 4 3 tt "one_hot"
    = (Return (self, st0), calls)
    /\ exists (e : exn) (st' : DecoderState),
        train_step self [example] initial_state = (Raise e, st').
Proof.
  eexists _, _, _. split; [reflexivity|].
  edestruct (init_without_parse_model (config "local") tt glove [walk; turn; stop]
               4 3 tt "one_hot")
    as [_ Hnever]; [reflexivity|].
  destruct (Hnever [example] initial_state) as (e & st' & Hraise & _).
  by exists e, st'.
Defined.

(** ** Strings *)

(** split_round_trip at the utterance "go left". *)
Lemma split_round_trip_witness : split "go left " = ["go"; "left"].
Proof.
  destruct (split_round_trip ["go"; "left"]) as [_ Hback].
  destruct Hback as [Hsentence _].
  - by repeat constructor.
  - exact Hsentence.
Defined.

(** ** The decision embedder *)

(** decisions_embedder_one_hot: one decision, padded to three rows. *)
Lemma decisions_embedder_one_hot_witness :
  exists padded : list (list float),
    decisions_embedder (decoder "local" 4 weighter beam) None ["turn"] None
    = Return padded
    /\ Z.of_nat (length padded) = 3%Z.
Proof.
  pose proof (decisions_embedder_one_hot (decoder "local" 4 weighter beam) None
                ["turn"] None) as Hmode.
  assert (decisions_to_one_hot (_predicate2index (decoder "local" 4 weighter beam)) ["turn"]
          = Return [[0; 1; 0]]%float) as Hrows by (vm_compute; reflexivity).
  rewrite Hrows in Hmode.
  destruct Hmode as [_ Hfew]; [discriminate|].
  destruct Hfew as (padded & Hpadded & Hlength & _); [cbn; lia|].
  exists padded. split; [exact Hpadded|exact Hlength].
Defined.

(** decisions_embedder_stack: no session is registered. *)
Lemma decisions_embedder_stack_witness :
  decisions_embedder
    (with_embedder_type (decoder "local" 4 weighter beam) "stack_embedder")
    None ["jump"] None
  = Raise (ValueError "No default TensorFlow Session registered.").
Proof.
  destruct (decisions_embedder_stack
              (with_embedder_type (decoder "local" 4 weighter beam) "stack_embedder")
              None ["jump"] [] None)
    as [_ Hsession].
  - reflexivity.
  - apply Hsession. by eexists.
Defined.

(** ** Training from a CSV file *)

Lemma good_rows_well_formed : Forall well_formed good_rows.
Proof. repeat constructor; by eexists _, _, _, _. Qed.

(** train_decomposable_from_csv_few_rows: a file of two rows. *)
Lemma train_decomposable_from_csv_few_rows_witness :
  train_decomposable_from_csv (decoder "local" 4 weighter beam) None good_rows initial_state
  = (Raise (ValueError "sample larger than population"),
     set_train_step_count 1 initial_state, []).
Proof.
  apply (train_decomposable_from_csv_few_rows (decoder "local" 4 weighter beam) None
           good_rows initial_state).
  - exact good_rows_well_formed.
  - cbn. lia.
Defined.

(** train_decomposable_from_csv_bad_row: the third row has the label
    "yes". *)
Lemma train_decomposable_from_csv_bad_row_witness :
  exists msg : string,
    train_decomposable_from_csv (decoder "local" 4 weighter beam) None
      (good_rows ++ [bad_row]) initial_state
    = (Raise (ValueError msg), set_train_step_count 1 initial_state, []).
Proof.
  apply (train_decomposable_from_csv_bad_row (decoder "local" 4 weighter beam) None
           good_rows [] bad_row initial_state).
  - exact good_rows_well_formed.
  - intros (utterance & decision & y_hat & n & [= _ _ <-] & Hint). discriminate.
Defined.

Lemma take_sampler_ok : sampler_ok.
Proof.
  intros i population k Hk. split.
  - cbn. rewrite length_take. lia.
  - apply Forall_forall. intros j Hj. cbn in Hj. by eapply subseteq_take.
Qed.

Lemma many_rows_trainable :
  Forall (trainable (decoder "local" 4 weighter beam)) many_rows.
Proof.
  apply Forall_replicate. exists ("go left", "walk turn", 1%Z).
  split; [by exists "1"|].
  unfold trainable_fields.
  change (split "go left") with ["go"; "left"].
  change (split "walk turn") with ["walk"; "turn"].
  split; [lia|]. split; [exact glove_knows_go_left|].
  split; [cbn; lia|]. split; [cbn; lia|].
  split; [|cbn; lia].
  repeat constructor.
  - exists 0. split; [reflexivity|]. vm_compute. lia.
  - exists 1. split; [reflexivity|]. vm_compute. lia.
Qed.

Lemma header_well_formed : well_formed header.
Proof. by eexists _, _, _, _. Qed.

#[local] Set Warnings "-abstract-large-number".


(** train_decomposable_from_csv_calls at the same file. *)
Lemma train_decomposable_from_csv_calls_witness :
  30 < length (header :: many_rows).
Proof.
  destruct (train_decomposable_from_csv_total (decoder "local" 4 weighter beam) None
              header many_rows initial_state)
    as [calls Hrun].
  - exact take_sampler_ok.
  - discriminate.
  - exact header_well_formed.
  - exact many_rows_trainable.
  - unfold many_rows. by rewrite length_replicate.
  - destruct (train_decomposable_from_csv_calls (decoder "local" 4 weighter beam) None
                (header :: many_rows) initial_state
                (set_train_step_count 1 initial_state) calls)
      as (_ & Hrows & _).
    + exact initial_state_invariant.
    + exact take_sampler_ok.
    + exact Hrun.
    + exact Hrows.
Defined.
